(** * PawTrail archive tool: a shallow embedding of [archive_tool.py]

    The Python program turns exported chat conversations into day, month and
    topic documents.  This development embeds its functions one by one, with
    the dynamic typing, the exceptions and the mutable stores of the source
    written out, and states the properties of the specification over them.

    Conventions.
    - A Python [str] is the list of its code points.
    - A decoded JSON value is a [pyval]; a dict is the list of its items in
      insertion order (the decoder never builds two items with one key).
    - A call that may raise returns a [result]; loops of the source that are
      not structurally recursive carry a fuel argument, and [OutOfFuel] is
      shown unreachable where a property needs it.
    - Functions of the Python runtime that are not code of this repository
      (number parsing, the local calendar, the JSON decoder) are the fields
      of the class [PyLib]. *)

From Stdlib Require Import ZArith NArith List Lia Bool.
From Stdlib Require Import Strings.String Strings.Ascii.
From Stdlib Require Import Floats.PrimFloat Floats.SpecFloat Floats.FloatOps.
From Stdlib Require Import Sorting.Permutation Sorting.Sorted.
From stdpp Require Import gmap list.

Local Open Scope Z_scope.
Set Warnings "-register-all,-clear-no-such-hyp".

(** ** Python strings *)

Abbreviation pystr := (list N) (only parsing).

(** An ASCII literal of the source as a Python string. *)
Definition lit (s : string) : pystr := map N_of_ascii (list_ascii_of_string s).

Definition NL : N := 10%N.
Definition TAB : N := 9%N.

Definition str_eqb (a b : pystr) : bool := bool_decide (a = b).

(** [str.isspace] for one character: the code points CPython's [strip()]
    removes. *)
Definition is_space (c : N) : bool :=
  ((9 <=? c) && (c <=? 13) || (28 <=? c) && (c <=? 32)
   || (c =? 133) || (c =? 160) || (c =? 5760)
   || (8192 <=? c) && (c <=? 8202)
   || (c =? 8232) || (c =? 8233) || (c =? 8239) || (c =? 8287)
   || (c =? 12288))%N.

Fixpoint lstrip_with (p : N -> bool) (s : pystr) : pystr :=
  match s with
  | c :: s' => if p c then lstrip_with p s' else s
  | [] => []
  end.

Definition rstrip_with (p : N -> bool) (s : pystr) : pystr :=
  rev (lstrip_with p (rev s)).

(** [s.strip()] *)
Definition strip (s : pystr) : pystr := rstrip_with is_space (lstrip_with is_space s).

(** [s.rstrip("\n")] *)
Definition rstrip_nl (s : pystr) : pystr := rstrip_with (N.eqb NL) s.

(** [s.startswith(p)] *)
Fixpoint startswith (p s : pystr) : bool :=
  match p, s with
  | [], _ => true
  | a :: p', b :: s' => (a =? b)%N && startswith p' s'
  | _ :: _, [] => false
  end.

(** [s.endswith(p)] *)
Definition endswith (p s : pystr) : bool := startswith (rev p) (rev s).

(** [t in s] for two strings *)
Fixpoint contains (t s : pystr) : bool :=
  startswith t s || match s with [] => false | _ :: s' => contains t s' end.

(** [sep.join(parts)] *)
Fixpoint join (sep : pystr) (parts : list pystr) : pystr :=
  match parts with
  | [] => []
  | [p] => p
  | p :: rest => p ++ sep ++ join sep rest
  end.

(** [s.replace(old, new)] for a non-empty [old]: every occurrence, left to
    right, without overlap.  [skip] counts the characters of a matched
    occurrence still to be passed over. *)
Fixpoint replace_from (old new : pystr) (skip : nat) (s : pystr) : pystr :=
  match s with
  | [] => []
  | c :: s' =>
      match skip with
      | S k => replace_from old new k s'
      | O => if startswith old s
             then new ++ replace_from old new (length old - 1) s'
             else c :: replace_from old new 0 s'
      end
  end.

Definition replace (old new s : pystr) : pystr := replace_from old new 0 s.

(** [s.find(c)] for a one-character needle: [None] stands for [-1]. *)
Fixpoint find_char (c : N) (s : pystr) : option nat :=
  match s with
  | [] => None
  | a :: s' => if (a =? c)%N then Some O else S <$> find_char c s'
  end.

(** [s.split(sep, 1)] for a one-character separator: [None] when the
    separator does not occur (the source then gets a one-element list). *)
Fixpoint split1 (sep : N) (s : pystr) : option (pystr * pystr) :=
  match s with
  | [] => None
  | a :: s' =>
      if (a =? sep)%N then Some ([], s')
      else '(h, t) ← split1 sep s'; Some (a :: h, t)
  end.

(** Decimal rendering of integers: [str(n)] and the [{n:0wd}] format. *)
Fixpoint digits_fuel (fuel : nat) (n : N) (acc : pystr) : pystr :=
  match fuel with
  | O => acc
  | S f =>
      let acc' := (48 + n mod 10)%N :: acc in
      if (n / 10 =? 0)%N then acc' else digits_fuel f (n / 10)%N acc'
  end.

Definition str_of_N (n : N) : pystr := digits_fuel (S (N.to_nat (N.log2 n))) n [].

Definition str_of_Z (z : Z) : pystr :=
  if z <? 0 then lit "-" ++ str_of_N (Z.abs_N z) else str_of_N (Z.abs_N z).

(** [f"{n:0wd}"] for a count [n]: zero-padded on the left to width [w]. *)
Definition zero_pad (w : nat) (n : nat) : pystr :=
  let d := str_of_N (N.of_nat n) in
  repeat 48%N (w - length d) ++ d.

(** ** Decoded JSON values *)

Inductive pyval : Type :=
| VNone
| VBool (b : bool)
| VInt (n : Z)
| VFloat (f : float)
| VStr (s : pystr)
| VList (l : list pyval)
| VDict (d : list (pystr * pyval)).

Abbreviation pydict := (list (pystr * pyval)) (only parsing).

(** Truth value of a Python object, as [if v] and [v or w] test it. *)
Definition truthy (v : pyval) : bool :=
  match v with
  | VNone => false
  | VBool b => b
  | VInt n => negb (n =? 0)
  | VFloat f => negb (PrimFloat.eqb f PrimFloat.zero)
  | VStr s => negb (bool_decide (s = []))
  | VList l => match l with [] => false | _ => true end
  | VDict d => match d with [] => false | _ => true end
  end.

(** [a or b] *)
Definition py_or (a b : pyval) : pyval := if truthy a then a else b.

(** ** Exceptions *)

Inductive exn : Set :=
| AttributeError | TypeError | ValueError | OverflowError | JSONDecodeError.

Inductive result (A : Type) : Type :=
| Ok (a : A)
| Raise (e : exn)
| OutOfFuel.
Arguments Ok {A} a.
Arguments Raise {A} e.
Arguments OutOfFuel {A}.

#[global] Instance result_ret : MRet result := fun A a => Ok a.
#[global] Instance result_bind : MBind result := fun A B f m =>
  match m with
  | Ok a => f a
  | Raise e => Raise e
  | OutOfFuel => OutOfFuel
  end.
#[global] Instance result_fmap : FMap result := fun A B f m =>
  match m with
  | Ok a => Ok (f a)
  | Raise e => Raise e
  | OutOfFuel => OutOfFuel
  end.

(** ** Dict access *)

Fixpoint dict_lookup (k : pystr) (d : pydict) : option pyval :=
  match d with
  | [] => None
  | (k', v) :: d' => if str_eqb k k' then Some v else dict_lookup k d'
  end.

(** [d.get(k, dflt)] on a value known to be a dict *)
Definition dict_get (d : pydict) (k : pystr) (dflt : pyval) : pyval :=
  default dflt (dict_lookup k d).

(** [v.get(k, dflt)]: only a dict has the attribute. *)
Definition py_get (v : pyval) (k : pystr) (dflt : pyval) : result pyval :=
  match v with
  | VDict d => Ok (dict_get d k dflt)
  | _ => Raise AttributeError
  end.

(** [k in d] for a dict [d] of a decoded document (string keys): an
    unhashable [k] raises, a hashable non-string is never a key. *)
Definition dict_contains (d : pydict) (k : pyval) : result bool :=
  match k with
  | VStr s => Ok (bool_decide (is_Some (dict_lookup s d)))
  | VList _ | VDict _ => Raise TypeError
  | _ => Ok false
  end.

(** [x in s] for a set [s] of strings *)
Definition set_contains (s : gset pystr) (k : pyval) : result bool :=
  match k with
  | VStr x => Ok (bool_decide (x ∈ s))
  | VList _ | VDict _ => Raise TypeError
  | _ => Ok false
  end.

(** [for x in v]: the items a [for] loop visits. *)
Definition py_iter (v : pyval) : result (list pyval) :=
  match v with
  | VList l => Ok l
  | VStr s => Ok (map (fun c => VStr [c]) s)
  | VDict d => Ok (map (fun kv => VStr (fst kv)) d)
  | _ => Raise TypeError
  end.

(** ** Floats: binary64, with Python's conversions *)

(** [float(n)] for an int: nearest-even rounding, [OverflowError] beyond the
    finite range. *)
Definition float_of_Z (n : Z) : result float :=
  match binary_normalize prec emax n 0 false with
  | S754_infinity _ | S754_nan => Raise OverflowError
  | sf => Ok (SF2Prim sf)
  end.

(** [int(t)] for a float: truncation towards zero. *)
Definition int_of_float (t : float) : result Z :=
  match Prim2SF t with
  | S754_zero _ => Ok 0
  | S754_finite s m e =>
      let v := match e with
               | Z0 => Zpos m
               | Zpos p => Zpos m * 2 ^ Zpos p
               | Zneg p => Zpos m / 2 ^ Zpos p
               end in
      Ok (if s then - v else v)
  | S754_infinity _ => Raise OverflowError
  | S754_nan => Raise ValueError
  end.

Definition float_1e12 : float := Eval cbv in SF2Prim (binary_normalize prec emax (10 ^ 12) 0 false).
Definition float_1000 : float := Eval cbv in SF2Prim (binary_normalize prec emax 1000 0 false).

(** ** The Python runtime the tool calls into *)

Class PyLib : Type := {
  (** [float(s)] for a string; [None] is [ValueError]. *)
  float_of_str : pystr -> option float;
  (** [int(s)] for a string; [None] is [ValueError]. *)
  int_of_str : pystr -> option Z;
  (** the class [\d] of [re]: Unicode decimal digits. *)
  isdecimal : N -> bool;
  (** [int(datetime.strptime(s, "%Y-%m-%d %H:%M:%S").timestamp())] in the
      local time zone; [None] when either call raises. *)
  strptime_timestamp : pystr -> option Z;
  (** [datetime.fromtimestamp(ts).strftime(fmt)] for the two formats of
      [day_key] and [to_iso]. *)
  strftime_day : Z -> result pystr;
  strftime_iso : Z -> result pystr;
  (** [str(v)], as an f-string renders a value. *)
  format_value : pyval -> pystr;
  (** [JSONDecoder().raw_decode(buf)]: the value and the index after it;
      [None] is [JSONDecodeError]. *)
  raw_decode : pystr -> option (pyval * nat);
  (** [json.load(f)] on the text of a file; [None] is [JSONDecodeError]. *)
  json_load : pystr -> option pyval;
}.

(** ** Sorting, as [sorted] and [list.sort] do it

    Both are stable; insertion before the first element that is not smaller
    keeps equal elements in their input order. *)
Fixpoint insert_sorted {A : Type} (leb : A -> A -> bool) (x : A) (l : list A) : list A :=
  match l with
  | [] => [x]
  | y :: l' => if leb x y then x :: l else y :: insert_sorted leb x l'
  end.

Definition isort {A : Type} (leb : A -> A -> bool) (l : list A) : list A :=
  foldr (insert_sorted leb) [] l.

(** [l.sort(key=key)] *)
Definition sort_by_key {A : Type} (key : A -> Z) (l : list A) : list A :=
  isort (fun x y => key x <=? key y) l.

(** [a <= b] on strings: lexicographic on code points. *)
Fixpoint str_leb (a b : pystr) : bool :=
  match a, b with
  | [], _ => true
  | _ :: _, [] => false
  | x :: a', y :: b' => (x <? y)%N || ((x =? y)%N && str_leb a' b')
  end.

(** [sorted(names)] for a list of strings *)
Definition sorted_names (names : list pystr) : list pystr := isort str_leb names.

(** [sorted(set(markers))] *)
Definition sorted_set (markers : list nat) : list nat := isort Nat.leb (remove_dups markers).

(** ** Files

    A directory is a finite map from file names to file contents; a file is
    the list of its lines, one per [write] call of this tool and one per
    element of [readlines()]. *)
Abbreviation store := (gmap pystr (list pystr)) (only parsing).

(** [os.listdir(dir)], then the [endswith] filter and [sorted]. *)
Definition listdir_sorted (suffix : pystr) (dir : store) : list pystr :=
  sorted_names (filter (fun f => endswith suffix f = true) (elements (dom dir))).

(** [open(path, "a")]: the file exists afterwards. *)
Definition open_append (path : pystr) (dir : store) : store :=
  <[path := default [] (dir !! path)]> dir.

(** One [w.write(line)] on a file opened for appending. *)
Definition append_line (path line : pystr) (dir : store) : store :=
  <[path := default [] (dir !! path) ++ [line]]> dir.

(** A left fold whose step may raise. *)
Fixpoint foldM {A B : Type} (f : B -> A -> result B) (b : B) (l : list A) : result B :=
  match l with
  | [] => Ok b
  | a :: l' => b' ← f b a; foldM f b' l'
  end.

(** A generator run to its end: the values it yielded, and how it ended
    ([Ok tt] for a normal end, the exception otherwise). *)
Definition gen (A : Type) : Type := list A * result unit.

Definition gen_cons {A : Type} (a : A) (g : gen A) : gen A := (a :: g.1, g.2).

(** [for x in outer: for y in inner(x): yield y], for an outer generator
    that yields [xs] and then ends as [ending]: an inner generator that
    raises ends the whole. *)
Fixpoint gen_bind {A B : Type} (inner : A -> gen B) (xs : list A) (ending : result unit)
    : gen B :=
  match xs with
  | [] => ([], ending)
  | x :: xs' =>
      match inner x with
      | (ys, Ok _) => let '(zs, e) := gen_bind inner xs' ending in (ys ++ zs, e)
      | g => g
      end
  end.

(** ** Message normalizer *)

Record NormalizedMessage : Type := {
  role : pyval;
  content : pystr;
  ts : Z;
}.

Record Conversation : Type := {
  title : pyval;
  messages : list NormalizedMessage;
}.

Definition TOPIC_TRIGGERS_DEFAULT : list pystr :=
  [ [23545; 20102]; [35805; 35828; 22238; 26469]; [39034; 20415];
    [21478; 22806]; [20877; 35828]; [21734; 23545];
    [25442; 20010; 35805; 39064]; [39064; 22806; 35805] ]%N.

Section Model.
Context `{lib : PyLib}.

(** [float(ts)] inside the [try] of [normalize_timestamp] and [safe_int]:
    [None] when the call raises (every exception is caught there). *)
Definition try_float (v : pyval) : option float :=
  match v with
  | VNone => None
  | VBool b => Some (if b then PrimFloat.one else PrimFloat.zero)
  | VInt n => match float_of_Z n with Ok t => Some t | _ => None end
  | VFloat t => Some t
  | VStr s => float_of_str s
  | VList _ | VDict _ => None
  end.

Definition safe_int (v : pystr) (dflt : Z) : Z :=
  match int_of_str v with
  | Some n => n
  | None =>
      match float_of_str v with
      | Some t => match int_of_float t with Ok n => n | _ => dflt end
      | None => dflt
      end
  end.

Definition normalize_timestamp (v : pyval) : result Z :=
  match v with
  | VNone => Ok 0
  | _ =>
      match try_float v with
      | None => Ok 0
      | Some t =>
          let t := if PrimFloat.ltb float_1e12 t then PrimFloat.div t float_1000 else t in
          int_of_float t
      end
  end.

(** The timestamp lookup that [normalize_message] and
    [get_node_message_timestamp] both spell out: [create_time], else the two
    metadata keys. *)
Definition raw_timestamp (msg : pyval) : result pyval :=
  ts ← py_get msg (lit "create_time") VNone;
  if truthy ts then Ok ts
  else
    m ← py_get msg (lit "metadata") (VDict []);
    let meta := py_or m (VDict []) in
    t ← py_get meta (lit "timestamp") VNone;
    if truthy t then Ok t else py_get meta (lit "timestamp_") VNone.

(** The [content] local of [normalize_message] before the final strip. *)
Definition raw_content (msg : pydict) : pyval :=
  match dict_lookup (lit "content") msg with
  | Some (VDict c) =>
      match dict_lookup (lit "parts") c with
      | Some (VList ps) =>
          VStr (join [NL] (omap (fun p => match p with VStr s => Some s | _ => None end) ps))
      | Some _ => VStr []
      | None =>
          match dict_lookup (lit "text") c with
          | Some v => v
          | None => VStr []
          end
      end
  | Some (VStr s) => VStr s
  | _ => VStr []
  end.

(** [(content or "").strip()] *)
Definition strip_content (c : pyval) : result pystr :=
  match py_or c (VStr []) with
  | VStr s => Ok (strip s)
  | _ => Raise AttributeError
  end.

Definition normalize_message (msg : pyval) : result NormalizedMessage :=
  match msg with
  | VDict d =>
      r ← py_get (py_or (dict_get d (lit "author") (VDict [])) (VDict [])) (lit "role") VNone;
      let role := py_or (py_or r (dict_get d (lit "role") VNone)) (VStr (lit "assistant")) in
      let content := raw_content d in
      ts ← raw_timestamp msg;
      c ← strip_content content;
      t ← normalize_timestamp ts;
      Ok {| role := role; content := c; ts := t |}
  | _ => Raise AttributeError
  end.

(** ** Conversation linearizer *)

Definition get_node_message_timestamp (node : pyval) : result Z :=
  if negb (truthy node) then Ok 0
  else
    m ← py_get node (lit "message") VNone;
    if negb (truthy m) then Ok 0
    else
      raw_ts ← raw_timestamp (py_or m (VDict []));
      normalize_timestamp raw_ts.

(** [cache] is the memo dict and [stack] the in-progress set of the source.
    The source adds [node_id] to [stack] and removes it before returning, so
    a call that returns leaves [stack] as it found it: the set is passed
    down and not returned.  [fuel] bounds the recursion depth. *)
Fixpoint get_latest_subtree_timestamp (fuel : nat) (mapping : pydict)
    (node_id : pyval) (cache : gmap pystr Z) (stack : gset pystr)
    : result (Z * gmap pystr Z) :=
  match fuel with
  | O => OutOfFuel
  | S fuel' =>
      if negb (truthy node_id) then Ok (0, cache)
      else
        known ← dict_contains mapping node_id;
        if negb known then Ok (0, cache)
        else
          match node_id with
          | VStr id =>
              match cache !! id with
              | Some t => Ok (t, cache)
              | None =>
                  if bool_decide (id ∈ stack)
                  then t ← get_node_message_timestamp (dict_get mapping id VNone); Ok (t, cache)
                  else
                    let stack' := {[id]} ∪ stack in
                    let node := py_or (dict_get mapping id VNone) (VDict []) in
                    best_ts ← get_node_message_timestamp node;
                    ch ← py_get node (lit "children") (VList []);
                    children ← py_iter (py_or ch (VList []));
                    '(best_ts, cache) ←
                      foldM (fun '(best_ts, cache) child_id =>
                               '(child_ts, cache) ←
                                 get_latest_subtree_timestamp fuel' mapping child_id cache stack';
                               Ok (if child_ts >? best_ts then child_ts else best_ts, cache))
                            (best_ts, cache) children;
                    Ok (best_ts, <[id := best_ts]> cache)
              end
          | _ => Ok (0, cache)
          end
  end.

(** [(mapping.get(node_id) or {}).get("parent")] *)
Definition node_parent (mapping : pydict) (node_id : pystr) : result pyval :=
  py_get (py_or (dict_get mapping node_id VNone) (VDict [])) (lit "parent") VNone.

(** The [while] loop of [collect_path_from_current_node]; [ids] in append
    order. *)
Fixpoint collect_path_loop (fuel : nat) (mapping : pydict) (node_id : pyval)
    (seen : gset pystr) (ids : list pystr) : result (list pystr) :=
  match fuel with
  | O => OutOfFuel
  | S fuel' =>
      if negb (truthy node_id) then Ok ids
      else
        visited ← set_contains seen node_id;
        if (visited : bool) then Ok ids
        else
          known ← dict_contains mapping node_id;
          if negb known then Ok ids
          else
            match node_id with
            | VStr id =>
                parent ← node_parent mapping id;
                collect_path_loop fuel' mapping parent ({[id]} ∪ seen) (ids ++ [id])
            | _ => Ok ids
            end
  end.

Definition collect_path_from_current_node (conv : pyval) (mapping : pydict)
    : result (list pystr) :=
  node_id ← py_get conv (lit "current_node") VNone;
  if negb (truthy node_id) then Ok []
  else
    known ← dict_contains mapping node_id;
    if negb known then Ok []
    else
      ids ← collect_path_loop (S (length mapping)) mapping node_id ∅ [];
      Ok (rev ids).

(** The root search of [collect_latest_branch_path]: the first identifier
    whose parent is [None] or not a key; [None] when the loop ends without
    a [break]. *)
Fixpoint find_root (mapping : pydict) (all_ids : list pystr) : result (option pystr) :=
  match all_ids with
  | [] => Ok None
  | i :: rest =>
      parent_id ← node_parent mapping i;
      match parent_id with
      | VNone => Ok (Some i)
      | _ =>
          known ← dict_contains mapping parent_id;
          if negb known then Ok (Some i) else find_root mapping rest
      end
  end.

(** The inner [for child_id in children] loop: the state is
    [(next_id, best_ts, cache)]. *)
Definition pick_child (mapping : pydict) (st : option pystr * Z * gmap pystr Z)
    (child_id : pyval) : result (option pystr * Z * gmap pystr Z) :=
  let '(next_id, best_ts, cache) := st in
  known ← dict_contains mapping child_id;
  if negb known then Ok st
  else
    '(child_ts, cache) ←
      get_latest_subtree_timestamp (S (length mapping)) mapping child_id cache ∅;
    match child_id with
    | VStr c =>
        if bool_decide (next_id = None) || (child_ts >? best_ts)
        then Ok (Some c, child_ts, cache)
        else Ok (next_id, best_ts, cache)
    | _ => Ok (next_id, best_ts, cache)
    end.

(** The [while] loop of [collect_latest_branch_path]. *)
Fixpoint latest_branch_loop (fuel : nat) (mapping : pydict) (node_id : pystr)
    (visited : gset pystr) (cache : gmap pystr Z) (ids : list pystr)
    : result (list pystr) :=
  match fuel with
  | O => OutOfFuel
  | S fuel' =>
      if bool_decide (node_id = [])
         || bool_decide (node_id ∈ visited)
         || negb (bool_decide (is_Some (dict_lookup node_id mapping)))
      then Ok ids
      else
        let visited := {[node_id]} ∪ visited in
        let ids := ids ++ [node_id] in
        let node := py_or (dict_get mapping node_id VNone) (VDict []) in
        ch ← py_get node (lit "children") (VList []);
        if negb (truthy (py_or ch (VList []))) then Ok ids
        else
          children ← py_iter (py_or ch (VList []));
          '(next_id, _, cache) ← foldM (pick_child mapping) (None, -1, cache) children;
          match next_id with
          | None => Ok ids
          | Some n =>
              if bool_decide (n = []) then Ok ids
              else latest_branch_loop fuel' mapping n visited cache ids
          end
  end.

Definition collect_latest_branch_path (mapping : pydict) : result (list pystr) :=
  let all_ids := map fst mapping in
  match all_ids with
  | [] => Ok []
  | first :: _ =>
      r ← find_root mapping all_ids;
      let root_id := default first r in
      latest_branch_loop (S (length mapping)) mapping root_id ∅ ∅ []
  end.

Definition path_to_messages (mapping : pydict) (path_ids : list pystr)
    : result (list NormalizedMessage) :=
  foldM (fun out pid =>
           let node := py_or (dict_get mapping pid VNone) (VDict []) in
           msg ← py_get node (lit "message") VNone;
           if negb (truthy msg) then Ok out
           else
             m ← normalize_message msg;
             if bool_decide (content m = []) then Ok out else Ok (out ++ [m]))
        [] path_ids.

(** The last five lines of [linearize_conversation]. *)
Definition reconcile (primary fallback : list NormalizedMessage) : list NormalizedMessage :=
  match primary with
  | [] => fallback
  | _ => if (length primary <? length fallback)%nat then fallback else primary
  end.

(** The two candidates, in the order the source computes them. *)
Definition primary_candidate (conv : pyval) (mapping : pydict) : result (list NormalizedMessage) :=
  ids ← collect_path_from_current_node conv mapping; path_to_messages mapping ids.

Definition fallback_candidate (mapping : pydict) : result (list NormalizedMessage) :=
  ids ← collect_latest_branch_path mapping; path_to_messages mapping ids.

(** A truthy [mapping] that is not a dict has neither [get] nor [keys]:
    the call raises in [collect_latest_branch_path] at the latest
    ([AttributeError], or [TypeError] from an unhashable [current_node]
    before it); that case is recorded as [AttributeError]. *)
Definition linearize_conversation (conv : pyval) : result (list NormalizedMessage) :=
  if negb (truthy conv) then Ok []
  else
    m ← py_get conv (lit "mapping") VNone;
    if negb (truthy m) then Ok []
    else
      match m with
      | VDict mapping =>
          primary ← primary_candidate conv mapping;
          fallback ← fallback_candidate mapping;
          Ok (reconcile primary fallback)
      | _ => Raise AttributeError
      end.

(** The body of the [for conv in conversations] loop of
    [parse_openai_conversations]: the messages of one conversation object. *)
Definition conversation_messages (conv : pyval) : result (list NormalizedMessage) :=
  m ← py_get conv (lit "mapping") VNone;
  if truthy m then linearize_conversation conv
  else
    raw ← py_get conv (lit "messages") (VList []);
    raw_msgs ← py_iter (py_or raw (VList []));
    foldM (fun out msg => m ← normalize_message msg; Ok (out ++ [m])) [] raw_msgs.

(** The loop itself, as a generator. *)
Fixpoint yield_conversations (conversations : list pyval) : gen Conversation :=
  match conversations with
  | [] => ([], Ok tt)
  | conv :: rest =>
      match conversation_messages conv with
      | Ok [] => yield_conversations rest
      | Ok msgs =>
          match py_get conv (lit "title") VNone with
          | Ok t =>
              gen_cons {| title := py_or t (VStr (lit "Conversation")); messages := msgs |}
                       (yield_conversations rest)
          | Raise e => ([], Raise e)
          | OutOfFuel => ([], OutOfFuel)
          end
      | Raise e => ([], Raise e)
      | OutOfFuel => ([], OutOfFuel)
      end
  end.

Definition parse_openai_conversations (obj : pyval) : gen Conversation :=
  let conversations :=
    match obj with
    | VList l => l
    | VDict d =>
        match dict_get d (lit "conversations") VNone with
        | VList l => l
        | _ => if truthy (dict_get d (lit "mapping") VNone) then [obj] else []
        end
    | _ => []
    end in
  yield_conversations conversations.

(** ** Streaming value source *)

(** [f.read(CHUNK_SIZE)] on a stream given by the chunks still to come:
    the empty string once they are used up. *)
Definition read (f : list pystr) : pystr * list pystr :=
  match f with
  | [] => ([], [])
  | chunk :: f' => (chunk, f')
  end.

(** The first loop of [iter_json_array]: [None] when it returns from the
    generator, the buffer after the bracket and the rest of the stream
    otherwise. *)
Fixpoint find_array_start (f : list pystr) (buf : pystr) : option (pystr * list pystr) :=
  match f with
  | [] => None
  | chunk :: f' =>
      if bool_decide (chunk = []) then None
      else
        let buf := buf ++ chunk in
        match find_char 91%N buf with
        | Some idx => Some (drop (S idx) buf, f')
        | None => find_array_start f' buf
        end
  end.

(** The characters of [" \t\r\n,"]. *)
Definition is_separator (c : N) : bool :=
  ((c =? 32) || (c =? 9) || (c =? 13) || (c =? 10) || (c =? 44))%N.

(** The second loop of [iter_json_array]. *)
Fixpoint iter_values (fuel : nat) (f : list pystr) (buf : pystr) : gen pyval :=
  match fuel with
  | O => ([], OutOfFuel)
  | S fuel' =>
      let buf := lstrip_with is_separator buf in
      match buf with
      | [] =>
          let '(chunk, f') := read f in
          if bool_decide (chunk = []) then ([], Ok tt)
          else iter_values fuel' f' (buf ++ chunk)
      | c :: _ =>
          if (c =? 93)%N then ([], Ok tt)
          else
            match raw_decode buf with
            | None =>
                let '(chunk, f') := read f in
                if bool_decide (chunk = []) then ([], Raise JSONDecodeError)
                else iter_values fuel' f' (buf ++ chunk)
            | Some (obj, idx) => gen_cons obj (iter_values fuel' f (drop idx buf))
            end
      end
  end.

Definition iter_json_array (fuel : nat) (f : list pystr) : gen pyval :=
  match find_array_start f [] with
  | None => ([], Ok tt)
  | Some (buf, f') => iter_values fuel f' buf
  end.

(** ** Day and month aggregator *)

Definition to_iso (ts : Z) : result pystr :=
  if ts =? 0 then Ok [] else strftime_iso ts.

Definition day_key (ts : Z) : result pystr :=
  if ts =? 0 then Ok (lit "unknown") else strftime_day ts.

(** [f"{v}"] *)
Definition py_str (v : pyval) : pystr :=
  match v with
  | VStr s => s
  | VInt n => str_of_Z n
  | VNone => lit "None"
  | VBool true => lit "True"
  | VBool false => lit "False"
  | _ => format_value v
  end.

(** The body of the inner loop of [write_by_day_raw] for one message: the
    directory and the count afterwards, and whether the step raised. *)
Definition write_message (st : store * nat) (m : NormalizedMessage) : (store * nat) * result unit :=
  let '(by_day, count) := st in
  if bool_decide (content m = []) then (st, Ok tt)
  else
    match day_key (ts m) with
    | Ok dk =>
        let raw_path := dk ++ lit ".raw" in
        let by_day := open_append raw_path by_day in
        match to_iso (ts m) with
        | Ok iso =>
            let line := str_of_Z (ts m) ++ [TAB] ++ lit "[" ++ iso ++ lit "] "
                        ++ py_str (role m) ++ lit ": "
                        ++ replace [NL] (lit " ") (content m) ++ [NL] in
            ((append_line raw_path line by_day, S count), Ok tt)
        | Raise e => ((by_day, count), Raise e)
        | OutOfFuel => ((by_day, count), OutOfFuel)
        end
    | Raise e => (st, Raise e)
    | OutOfFuel => (st, OutOfFuel)
    end.

Fixpoint write_messages (st : store * nat) (ms : list NormalizedMessage) : (store * nat) * result unit :=
  match ms with
  | [] => (st, Ok tt)
  | m :: rest =>
      match write_message st m with
      | (st', Ok _) => write_messages st' rest
      | r => r
      end
  end.

(** [write_by_day_raw]: the directory afterwards, and the returned count
    or the exception. *)
Definition write_by_day_raw (conversations : gen Conversation) (by_day : store)
    : store * result nat :=
  match write_messages (by_day, O) (concat (map messages conversations.1)) with
  | ((by_day', count), Ok _) => (by_day', _ ← conversations.2; Ok count)
  | ((by_day', _), Raise e) => (by_day', Raise e)
  | ((by_day', _), OutOfFuel) => (by_day', OutOfFuel)
  end.

(** [load_conversations_stream] on the chunks of the input file. *)
Definition load_conversations_stream (fuel : nat) (f : list pystr) : gen Conversation :=
  let values := iter_json_array fuel f in
  gen_bind (fun obj =>
              parse_openai_conversations
                match obj with VDict _ | VList _ => obj | _ => VList [] end)
           values.1 values.2.

(** [load_conversations_fallback]: one bulk parse of the whole text. *)
Definition load_conversations_fallback (f : list pystr) : gen Conversation :=
  match json_load (concat f) with
  | Some data => parse_openai_conversations data
  | None => ([], Raise JSONDecodeError)
  end.

(** The [try] of the month stage of [main]: the streaming load, and the
    bulk load when the first attempt raised; the day files the first
    attempt wrote stay. *)
Definition load_into_day_files (fuel : nat) (f : list pystr) (by_day : store)
    : store * result nat :=
  match write_by_day_raw (load_conversations_stream fuel f) by_day with
  | (by_day', Raise _) => write_by_day_raw (load_conversations_fallback f) by_day'
  | r => r
  end.

(** [key_fn] of [build_month_files] *)
Definition key_fn (line : pystr) : Z :=
  safe_int (match split1 TAB line with Some (h, _) => h | None => line end) 0.

(** The month key of a day-file name. *)
Definition month_key_of_file (day_file : pystr) : pystr :=
  let day := replace (lit ".raw") [] day_file in
  if str_eqb day (lit "unknown") then lit "unknown" else take 7 day.

Definition month_path (mkey : pystr) : pystr := mkey ++ lit ".md".

(** [^msg-NNNNNN] *)
Definition anchor (n : nat) : pystr := lit "^msg-" ++ zero_pad 6 n.

Record month_state : Type := {
  month_dir : store;
  month_counts : gmap pystr nat;
}.

(** One pass of [for line in lines]: a line without a tab is skipped. *)
Definition emit_line (mkey : pystr) (st : month_state) (line : pystr) : month_state :=
  match split1 TAB line with
  | None => st
  | Some (_, rest) =>
      let n := S (default O (month_counts st !! mkey)) in
      {| month_dir := append_line (month_path mkey)
                        (strip rest ++ lit " " ++ anchor n ++ [NL]) (month_dir st);
         month_counts := <[mkey := n]> (month_counts st) |}
  end.

(** One pass of [for day_file in day_files]. *)
Definition build_day_file (by_day : store) (st : month_state) (day_file : pystr) : month_state :=
  let mkey := month_key_of_file day_file in
  let lines := sort_by_key key_fn (default [] (by_day !! day_file)) in
  let st := {| month_dir := open_append (month_path mkey) (month_dir st);
               month_counts := match month_counts st !! mkey with
                               | Some _ => month_counts st
                               | None => <[mkey := O]> (month_counts st)
                               end |} in
  foldl (emit_line mkey) st lines.

(** [build_month_files] on a [by_day] directory: the [by_month] directory
    afterwards.  (A missing [by_day] directory writes nothing, as an empty
    one does.) *)
Definition build_month_files (by_day by_month : store) : store :=
  month_dir (foldl (build_day_file by_day)
                   {| month_dir := by_month; month_counts := ∅ |}
                   (listdir_sorted (lit ".raw") by_day)).

(** ** Topic segmenter *)

(** The regular expression [\[(\d{4}-\d{2}-\d{2} \d{2}:\d{2}:\d{2})\]]:
    [None] in the pattern is [\d], [Some c] the literal [c]. *)
Definition timestamp_pattern : list (option N) :=
  let d := None in
  [d; d; d; d; Some 45; d; d; Some 45; d; d; Some 32;
   d; d; Some 58; d; d; Some 58; d; d]%N.

Fixpoint match_pattern (pat : list (option N)) (s : pystr) : bool :=
  match pat, s with
  | [], _ => true
  | None :: pat', c :: s' => isdecimal c && match_pattern pat' s'
  | Some a :: pat', c :: s' => (a =? c)%N && match_pattern pat' s'
  | _ :: _, [] => false
  end.

(** [re.match(...)] on a line, then [m.group(1)]. *)
Definition match_timestamp (line : pystr) : option pystr :=
  match line with
  | c :: rest =>
      if (c =? 91)%N && match_pattern timestamp_pattern rest
         && bool_decide (rest !! 19%nat = Some 93%N)
      then Some (take 19 rest)
      else None
  | [] => None
  end.

(** The local [ts] of the loop body: [None] without a match or when the
    parse raises. *)
Definition line_timestamp (line : pystr) : option Z :=
  g ← match_timestamp line; strptime_timestamp g.

(** An int or [None] as a condition: [Some 0] and [None] are both false. *)
Definition truthy_ts (t : option Z) : bool :=
  match t with
  | Some n => negb (n =? 0)
  | None => false
  end.

(** [if last_ts and ts: if ts - last_ts >= gap_hours * 3600] *)
Definition gap_reached (gap_hours : Z) (last_ts ts : option Z) : bool :=
  match last_ts, ts with
  | Some a, Some b => truthy_ts last_ts && truthy_ts ts && (gap_hours * 3600 <=? b - a)
  | _, _ => false
  end.

(** [any(t in line for t in triggers)] *)
Definition has_trigger (triggers : list pystr) (line : pystr) : bool :=
  existsb (fun t => contains t line) triggers.

(** The [for i, line in enumerate(lines)] loop from index [i] on. *)
Fixpoint boundaries_loop (gap_hours : Z) (triggers : list pystr) (i : nat)
    (last_ts : option Z) (markers : list nat) (lines : list pystr) : list nat :=
  match lines with
  | [] => markers
  | line :: rest =>
      let ts := line_timestamp line in
      let markers := if gap_reached gap_hours last_ts ts then markers ++ [i] else markers in
      let markers := if has_trigger triggers line then markers ++ [i] else markers in
      let last_ts := if truthy_ts ts then ts else last_ts in
      boundaries_loop gap_hours triggers (S i) last_ts markers rest
  end.

Definition detect_topic_boundaries (lines : list pystr) (gap_hours : Z)
    (triggers : list pystr) : list nat :=
  sorted_set (boundaries_loop gap_hours triggers 0 None [] lines ++ [O]).

Definition topic_start : pystr := lit "[TOPIC_START]".

(** The lines [build_topic_preview] writes for one month file, from index
    [i] on; [topic_idx] is the running counter. *)
Fixpoint preview_lines (markers : list nat) (i topic_idx : nat) (lines : list pystr)
    : list pystr :=
  match lines with
  | [] => []
  | line :: rest =>
      if bool_decide (i ∈ markers)
      then
        let date_prefix := if startswith (lit "[") line
                           then take 10 (drop 1 line) else lit "unknown" in
        (topic_start ++ lit " " ++ date_prefix ++ lit " Topic-"
           ++ zero_pad 3 (S topic_idx) ++ [NL])
        :: (line ++ [NL]) :: preview_lines markers (S i) (S topic_idx) rest
      else (line ++ [NL]) :: preview_lines markers (S i) topic_idx rest
  end.

(** One pass of [for fname in sorted(os.listdir(month_dir))]. *)
Definition preview_file (gap_hours : Z) (triggers : list pystr) (dir : store)
    (fname : pystr) : store :=
  let lines := map rstrip_nl (default [] (dir !! fname)) in
  match lines with
  | [] => dir
  | _ =>
      let markers := detect_topic_boundaries lines gap_hours triggers in
      <[replace (lit ".md") (lit ".topics.md") fname := preview_lines markers 0 0 lines]> dir
  end.

Definition build_topic_preview (by_month : store) (gap_hours : Z)
    (triggers : list pystr) : store :=
  foldl (preview_file gap_hours triggers) by_month (listdir_sorted (lit ".md") by_month).

(** ** Topic splitter *)

Record split_state : Type := {
  current : option pystr;
  buffer : list pystr;
  by_topic : store;
}.

(** The class [[^0-9A-Za-z一-龥_-]] of the file-name pattern. *)
Definition outside_name_class (c : N) : bool :=
  negb ((48 <=? c) && (c <=? 57) || (65 <=? c) && (c <=? 90)
        || (97 <=? c) && (c <=? 122) || (19968 <=? c) && (c <=? 40869)
        || (c =? 95) || (c =? 45))%N.

(** [re.sub(r"[^...]+", "_", s)]: each maximal run outside the class
    becomes one underscore. *)
Fixpoint sub_runs (in_run : bool) (s : pystr) : pystr :=
  match s with
  | [] => []
  | c :: s' =>
      if outside_name_class c
      then if in_run then sub_runs true s' else 95%N :: sub_runs true s'
      else c :: sub_runs false s'
  end.

Definition topic_filename (title : pystr) : pystr := sub_runs false title.

Definition front_matter (title : pystr) : list pystr :=
  [ lit "---" ++ [NL];
    lit "title: " ++ title ++ [NL];
    lit "date: " ++ (if (10 <=? length title)%nat then take 10 title else []) ++ [NL];
    lit "---" ++ [NL; NL] ].

(** The nested [flush]: without a title it returns at once, and the buffer
    stays as it is. *)
Definition flush (st : split_state) : split_state :=
  match current st with
  | None => st
  | Some [] => st
  | Some title =>
      {| current := current st;
         buffer := [];
         by_topic := <[topic_filename title ++ lit ".md" :=
                         front_matter title ++ map (fun ln => ln ++ [NL]) (buffer st)]>
                       (by_topic st) |}
  end.

(** One pass of [for line in lines]. *)
Definition split_step (st : split_state) (line : pystr) : split_state :=
  if startswith topic_start line
  then
    let st := flush st in
    {| current := Some (strip (replace topic_start [] line));
       buffer := buffer st;
       by_topic := by_topic st |}
  else
    {| current := current st; buffer := buffer st ++ [line]; by_topic := by_topic st |}.

(** The topic documents of [split_topics]: the loop, then the last flush. *)
Definition split_documents (lines : list pystr) (dir : store) : store :=
  by_topic (flush (foldl split_step {| current := None; buffer := []; by_topic := dir |} lines)).

(** The lines of [event_anchor_mapping.csv]. *)
Definition anchor_mapping (month : pystr) (dir : store) : list pystr :=
  (lit "event_anchor,obsidian_path" ++ [NL])
  :: map (fun fname =>
            replace (lit ".md") [] fname ++ lit ","
            ++ lit "by_topic/" ++ month ++ lit "/" ++ fname ++ [NL])
         (listdir_sorted (lit ".md") dir).

(** [split_topics] on the lines of the annotated file ([readlines()]) and
    the directory [by_topic/<month>]. *)
Definition split_topics (month : pystr) (topics_file : list pystr) (dir : store) : store :=
  let dir := split_documents (map rstrip_nl topics_file) dir in
  <[lit "event_anchor_mapping.csv" := anchor_mapping month dir]> dir.

End Model.

(** ** A reference runtime

    An instance of [PyLib] for running the model on concrete inputs: a
    machine whose local time is a fixed offset from UTC.  It agrees with
    CPython on the inputs it accepts, and accepts ASCII only: integers
    written in plain decimal, calendar dates of the years 1 to 9999, and
    the JSON scalars [null], [true], [false], unsigned integers and strings
    without escapes. *)
Module Reference.

Definition is_ascii_digit (c : N) : bool := ((48 <=? c) && (c <=? 57))%N.

Fixpoint Z_of_digits (acc : Z) (s : pystr) : option Z :=
  match s with
  | [] => Some acc
  | c :: s' =>
      if is_ascii_digit c then Z_of_digits (acc * 10 + Z.of_N (c - 48)) s' else None
  end.

Definition parse_int (s : pystr) : option Z :=
  match strip s with
  | [] => None
  | 45%N :: (_ :: _) as d => Z.opp <$> Z_of_digits 0 (tail d)
  | d => Z_of_digits 0 d
  end.

Definition parse_float (s : pystr) : option float :=
  n ← parse_int s;
  match float_of_Z n with Ok t => Some t | _ => None end.

Definition is_leap (y : Z) : bool :=
  ((y mod 4 =? 0) && negb (y mod 100 =? 0)) || (y mod 400 =? 0).

Definition days_in_month (y m : Z) : Z :=
  if m =? 2 then (if is_leap y then 29 else 28)
  else if (m =? 4) || (m =? 6) || (m =? 9) || (m =? 11) then 30 else 31.

(** Days from 1970-01-01 to the given date of the proleptic Gregorian
    calendar. *)
Definition days_from_civil (y m d : Z) : Z :=
  let y' := if m <=? 2 then y - 1 else y in
  let era := y' / 400 in
  let yoe := y' - era * 400 in
  let doy := (153 * (if 2 <? m then m - 3 else m + 9) + 2) / 5 + d - 1 in
  let doe := yoe * 365 + yoe / 4 - yoe / 100 + doy in
  era * 146097 + doe - 719468.

(** The date of a day number: the inverse of [days_from_civil]. *)
Definition civil_from_days (z : Z) : Z * Z * Z :=
  let z := z + 719468 in
  let era := z / 146097 in
  let doe := z - era * 146097 in
  let yoe := (doe - doe / 1460 + doe / 36524 - doe / 146096) / 365 in
  let doy := doe - (365 * yoe + yoe / 4 - yoe / 100) in
  let mp := (5 * doy + 2) / 153 in
  let d := doy - (153 * mp + 2) / 5 + 1 in
  let m := if mp <? 10 then mp + 3 else mp - 9 in
  (yoe + era * 400 + (if m <=? 2 then 1 else 0), m, d).

Definition field (from len : nat) (s : pystr) : option Z :=
  Z_of_digits 0 (take len (drop from s)).

Definition strptime_at (offset : Z) (s : pystr) : option Z :=
  if negb (length s =? 19)%nat then None
  else
    y ← field 0 4 s; m ← field 5 2 s; d ← field 8 2 s;
    hh ← field 11 2 s; mm ← field 14 2 s; ss ← field 17 2 s;
    if (1 <=? y) && (1 <=? m) && (m <=? 12) && (1 <=? d) && (d <=? days_in_month y m)
       && (hh <=? 23) && (mm <=? 59) && (ss <=? 59)
    then Some (days_from_civil y m d * 86400 + hh * 3600 + mm * 60 + ss - offset)
    else None.

Definition pad (w : nat) (n : Z) : pystr := zero_pad w (Z.to_nat n).

Definition strftime_day_at (offset ts : Z) : result pystr :=
  let '(y, m, d) := civil_from_days ((ts + offset) / 86400) in
  if (1 <=? y) && (y <=? 9999)
  then Ok (pad 4 y ++ lit "-" ++ pad 2 m ++ lit "-" ++ pad 2 d)
  else Raise ValueError.

Definition strftime_iso_at (offset ts : Z) : result pystr :=
  let s := (ts + offset) mod 86400 in
  day ← strftime_day_at offset ts;
  Ok (day ++ lit " " ++ pad 2 (s / 3600) ++ lit ":" ++ pad 2 (s mod 3600 / 60)
          ++ lit ":" ++ pad 2 (s mod 60)).

Fixpoint span_digits (s : pystr) : pystr * nat :=
  match s with
  | c :: s' => if is_ascii_digit c
               then let '(d, n) := span_digits s' in (c :: d, S n)
               else ([], O)
  | [] => ([], O)
  end.

Definition decode_scalar (buf : pystr) : option (pyval * nat) :=
  if startswith (lit "null") buf then Some (VNone, 4%nat)
  else if startswith (lit "true") buf then Some (VBool true, 4%nat)
  else if startswith (lit "false") buf then Some (VBool false, 5%nat)
  else
    match buf with
    | 34%N :: s =>
        n ← find_char 34%N s;
        if existsb (N.eqb 92%N) (take n s) then None
        else Some (VStr (take n s), S (S n))
    | _ =>
        match span_digits buf with
        | (_, O) => None
        | (d, n) => v ← Z_of_digits 0 d; Some (VInt v, n)
        end
    end.

#[local] Instance fixed_offset (offset : Z) : PyLib := {|
  float_of_str := parse_float;
  int_of_str := parse_int;
  isdecimal := is_ascii_digit;
  strptime_timestamp := strptime_at offset;
  strftime_day := strftime_day_at offset;
  strftime_iso := strftime_iso_at offset;
  format_value := fun _ => [];
  raw_decode := decode_scalar;
  json_load := fun text =>
    '(v, n) ← decode_scalar text;
    if (n =? length text)%nat then Some v else None;
|}.

(** Local time is UTC. *)
Definition utc : PyLib := fixed_offset 0.

(** Local time is eight hours ahead of UTC. *)
Definition utc_plus_8 : PyLib := fixed_offset 28800.

End Reference.

(** ** Notions the properties are stated with *)

(** A JSON string literal. *)
Definition quoted (s : string) : pystr := [34%N] ++ lit s ++ [34%N].

(** A call that returns or raises: the fuel of the model was enough. *)
Definition terminates {A : Type} (r : result A) : Prop := r <> OutOfFuel.

(** Timestamps that are known and each less than the gap after the one
    before. *)
Fixpoint closely_spaced (gap : Z) (prev : option Z) (tss : list Z) : Prop :=
  match tss with
  | [] => True
  | t :: rest =>
      t <> 0
      /\ match prev with Some a => a <> 0 /\ t - a < gap * 3600 | None => True end
      /\ closely_spaced gap (Some t) rest
  end.

(** A marker line of an annotated month file, and the title it carries. *)
Abbreviation is_marker line := (startswith topic_start line = true).
Abbreviation marker_title line := (strip (replace topic_start [] line)).

Section Notions.
Context `{lib : PyLib}.

(** The value of [last_ts] after the loop of [detect_topic_boundaries] has
    passed the given lines: the last timestamp among them that is neither
    missing nor zero. *)
Definition last_known_ts (last : option Z) (passed : list pystr) : option Z :=
  foldl (fun last line =>
           if truthy_ts (line_timestamp line) then line_timestamp line else last)
        last passed.

(** The identifiers of a mapping, as a set. *)
Definition keyset (mapping : pydict) : gset pystr := list_to_set (map fst mapping).

(** A walk towards the root: each identifier is followed by its parent. *)
Fixpoint parent_chain (mapping : pydict) (walk : list pystr) : Prop :=
  match walk with
  | a :: (b :: _) as rest => node_parent mapping a = Ok (VStr b) /\ parent_chain mapping rest
  | _ => True
  end.

(** Why the walk does not go on to [p]: it is absent, visited, or no key. *)
Definition walk_stops_at (mapping : pydict) (visited : list pystr) (p : pyval) : Prop :=
  truthy p = false
  \/ (exists s : pystr, p = VStr s /\ s ∈ visited)
  \/ dict_contains mapping p = Ok false.

(** The lines of a day file that reach the month file, in the order the
    month build writes them: sorted by [key_fn], those without a tab left
    out. *)
Definition day_sources (by_day : store) (day_file : pystr) : list pystr :=
  filter (fun line => is_Some (split1 TAB line))
         (sort_by_key key_fn (default [] (by_day !! day_file))).

(** The day files among [files] that go into the month [mkey]. *)
Definition files_of_month (files : list pystr) (mkey : pystr) : list pystr :=
  filter (fun f => month_key_of_file f = mkey) files.

Definition sources_of (by_day : store) (files : list pystr) (mkey : pystr) : list pystr :=
  concat (map (day_sources by_day) (files_of_month files mkey)).

(** The day files of a month in the order of the build, and the day lines
    behind the lines of the month file. *)
Definition month_day_files (by_day : store) (mkey : pystr) : list pystr :=
  files_of_month (listdir_sorted (lit ".raw") by_day) mkey.

Definition month_sources (by_day : store) (mkey : pystr) : list pystr :=
  sources_of by_day (listdir_sorted (lit ".raw") by_day) mkey.

(** The month line written for a day line, with the anchor number [n]. *)
Definition month_line (n : nat) (source : pystr) : pystr :=
  match split1 TAB source with
  | Some (_, rest) => strip rest ++ lit " " ++ anchor n ++ [NL]
  | None => []
  end.

(** Month lines numbered from [k + 1] on. *)
Definition numbered_from (k : nat) (sources : list pystr) : list pystr :=
  imap (fun j source => month_line (S (k + j)) source) sources.

(** Non-decreasing in the leading timestamp. *)
Definition in_time_order (lines : list pystr) : Prop :=
  StronglySorted (fun a b => key_fn a <= key_fn b) lines.

(** The marker line written before a boundary line. *)
Definition topic_header (line : pystr) (n : nat) : pystr :=
  topic_start ++ lit " "
  ++ (if startswith (lit "[") line then take 10 (drop 1 line) else lit "unknown")
  ++ lit " Topic-" ++ zero_pad 3 n ++ [NL].

End Notions.

(** ** Further notions *)

(** A character a topic file name may hold: the class of the pattern in
    [flush], unnegated. *)
Definition in_name_class (c : N) : Prop := outside_name_class c = false.

(** A string [strip()] leaves as it is. *)
Definition trimmed (s : pystr) : Prop := strip s = s.

(** A day line the month build keeps: it has a tab. *)
Definition has_tab (line : pystr) : Prop := is_Some (split1 TAB line).

(** [node.get("children", []) or []] of a node of the mapping, as the
    loops over the children visit it. *)
Definition children_of (mapping : pydict) (node_id : pystr) : result (list pyval) :=
  ch ← py_get (py_or (dict_get mapping node_id VNone) (VDict [])) (lit "children") (VList []);
  py_iter (py_or ch (VList [])).

(** A walk away from the root: each identifier is followed by one of its
    children. *)
Fixpoint child_chain (mapping : pydict) (walk : list pystr) : Prop :=
  match walk with
  | a :: (b :: _) as rest =>
      (exists cs, children_of mapping a = Ok cs /\ VStr b ∈ cs) /\ child_chain mapping rest
  | _ => True
  end.



(** The message a path identifier contributes to a transcript. *)
Definition message_of_node (lib : PyLib) (mapping : pydict) (node_id : pystr)
    (m : NormalizedMessage) : Prop :=
  exists msg : pyval,
    py_get (py_or (dict_get mapping node_id VNone) (VDict [])) (lit "message") VNone = Ok msg
    /\ truthy msg = true
    /\ normalize_message msg = Ok m.






(** A file of the directory that holds at least one line. *)
Definition has_lines (dir : store) (path : pystr) : Prop :=
  exists (first : pystr) (rest : list pystr), dir !! path = Some (first :: rest).

(** ** Sample inputs *)
Module Samples.

(** A node of a mapping: a message with a text and a time, a parent, and
    children. *)
Definition node (parent : pyval) (children : list string) (text : string) (t : Z) : pyval :=
  VDict [ (lit "message",
           VDict [(lit "content", VStr (lit text)); (lit "create_time", VInt t)]);
          (lit "parent", parent);
          (lit "children", VList (map (fun c => VStr (lit c)) children)) ].

(** A conversation that branches below its root: the current node [c] is
    the short branch, the branch through [b] holds the latest message. *)
Definition branching_mapping : pydict :=
  [ (lit "a", node VNone ["b"; "c"]%string "root" 1);
    (lit "b", node (VStr (lit "a")) ["d"]%string "bee" 2);
    (lit "c", node (VStr (lit "a")) [] "cee" 3);
    (lit "d", node (VStr (lit "b")) [] "dee" 9) ].

Definition branching_conversation : pydict :=
  [ (lit "current_node", VStr (lit "c")); (lit "mapping", VDict branching_mapping) ].

Definition said (text : string) (t : Z) : NormalizedMessage :=
  {| role := VStr (lit "assistant"); content := lit text; ts := t |}.

(** Two day files of one month, each with one line; in [swapped_days] the
    day file with the earlier name holds the later timestamp. *)
Definition day_line (t : Z) (text : string) : pystr :=
  str_of_Z t ++ [TAB] ++ lit "[] user: " ++ lit text ++ [NL].

Definition ordered_days : gmap (list N) (list (list N)) :=
  <[lit "2026-01-10.raw" := [day_line 1000 "earlier"]]>
    (<[lit "2026-01-11.raw" := [day_line 90000 "later"]]> ∅).

Definition swapped_days : gmap (list N) (list (list N)) :=
  <[lit "2026-01-10.raw" := [day_line 90000 "later"]]>
    (<[lit "2026-01-11.raw" := [day_line 1000 "earlier"]]> ∅).

(** A flat conversation whose only message has no text. *)
Definition flat_conversation : pyval :=
  VDict [(lit "messages", VList [VDict [(lit "content", VStr [])]])].

End Samples.

(** Further sample inputs. *)
Module Cases.

(** A message with white space around its text. *)
Definition padded_message : pyval :=
  VDict [ (lit "role", VStr (lit "user"));
          (lit "content", VStr (lit "  hi " ++ [NL]));
          (lit "create_time", VInt 5) ].

(** Two nodes that name each other as parent and as child: a mapping
    without a root. *)
Definition cyclic_mapping : pydict :=
  [ (lit "a", Samples.node (VStr (lit "b")) ["b"]%string "one" 5);
    (lit "b", Samples.node (VStr (lit "a")) ["a"]%string "two" 7) ].

(** An export whose array is wrapped in an object, cut into two chunks
    in front of the bracket. *)
Definition wrapped_stream : list pystr := [lit "{ data: "; lit " [ 1, 2 ]}"].

(** A month file of two lines, and an annotated file whose only marker has
    no title. *)
Definition plain_month : list pystr :=
  [lit "[2026-01-10 09:00:00] user: a"; lit "[2026-01-10 10:30:00] assistant: b"].


(** One conversation of two messages, the second without text, and a
    directory that already holds the day file of the first. *)
Definition two_messages : gen Conversation :=
  ([ {| title := VStr (lit "Conversation");
        messages := [Samples.said "hi" 1000; Samples.said "" 2000] |} ], Ok tt).


(** A [by_month] directory with one month file. *)
Definition one_month : store :=
  <[lit "2026-01.md" := map (fun l => l ++ [NL]) plain_month]> ∅.

Definition one_day : store := <[lit "1970-01-01.raw" := [lit "kept" ++ [NL]]]> ∅.

End Cases.

(** * Properties *)

Section NormalizerProperties.
Context `{lib : PyLib}.

Lemma normalize_message_dict (d : pydict) (m : NormalizedMessage) :
  normalize_message (VDict d) = Ok m ->
  strip_content (raw_content d) = Ok (content m).
Proof.
  unfold normalize_message.
  destruct (py_get _ (lit "role") VNone) as [r| |]; simpl; try discriminate.
  destruct (raw_timestamp (VDict d)) as [t| |]; simpl; try discriminate.
  destruct (strip_content (raw_content d)) as [c| |]; simpl; try discriminate.
  destruct (normalize_timestamp t) as [z| |]; simpl; try discriminate.
  intros [= Hm]. subst m. reflexivity.
Qed.

(** C9: a message whose content carries the parts ["a", "b"] normalizes to
    the content "a\nb", and the millisecond timestamp 1700000000000
    normalizes to the same integer second as 1700000000: a value above
    10^12 is divided by 1000 and truncated, a value up to 10^12 is only
    truncated. *)
Theorem normalize_parts_and_milliseconds (d c : pydict) (m : NormalizedMessage) :
  dict_lookup (lit "content") d = Some (VDict c) ->
  dict_lookup (lit "parts") c = Some (VList [VStr (lit "a"); VStr (lit "b")]) ->
  normalize_message (VDict d) = Ok m ->
  content m = lit "a" ++ [NL] ++ lit "b"
  /\ normalize_timestamp (VInt 1700000000000) = Ok 1700000000
  /\ normalize_timestamp (VInt 1700000000000) = normalize_timestamp (VInt 1700000000)
  /\ (forall t : float,
        normalize_timestamp (VFloat t)
        = int_of_float (if PrimFloat.ltb float_1e12 t then PrimFloat.div t float_1000 else t))
  /\ normalize_timestamp (VInt (10 ^ 12)) = Ok (10 ^ 12)
  /\ normalize_timestamp (VInt (10 ^ 12 + 1)) = Ok (10 ^ 9)
  /\ normalize_timestamp (VInt 1700000000999) = Ok 1700000000
  /\ normalize_timestamp (VFloat 1700000000000.5%float) = Ok 1700000000
  /\ normalize_timestamp (VFloat 1700000000.75%float) = Ok 1700000000
  /\ ts <$> normalize_message (VDict [(lit "create_time", VInt 1700000000000)])
     = ts <$> normalize_message (VDict [(lit "create_time", VInt 1700000000)]).
Proof.
  intros Hc Hp Hm. split.
  - apply normalize_message_dict in Hm.
    unfold raw_content in Hm. rewrite Hc, Hp in Hm.
    revert Hm. generalize (content m). intros x.
    vm_compute. intros [= <-]. reflexivity.
  - repeat split; try (vm_compute; reflexivity).
Qed.

(** C2, at the input that refutes it: a message whose content object
    carries a number under "text" makes the normalizer raise, where the
    "parts" branch filters the non-strings out. *)
Theorem normalize_message_raises_on_numeric_text :
  normalize_message (VDict [(lit "content", VDict [(lit "text", VInt 5)])])
  = Raise AttributeError.
Proof. reflexivity. Qed.

(** Further shapes on which the normalizer raises: a record that is not an
    object, an author or a metadata field that is a string, and a timestamp
    that is not finite. *)
Lemma normalize_message_raises_elsewhere :
  normalize_message (VStr (lit "hello")) = Raise AttributeError
  /\ normalize_message (VDict [(lit "author", VStr (lit "user"))]) = Raise AttributeError
  /\ normalize_message (VDict [(lit "metadata", VStr (lit "x"))]) = Raise AttributeError
  /\ normalize_message (VDict [(lit "create_time", VFloat PrimFloat.infinity)])
     = Raise OverflowError
  /\ normalize_message (VDict [(lit "create_time", VFloat PrimFloat.nan)])
     = Raise ValueError.
Proof. repeat split; vm_compute; reflexivity. Qed.

(** What never raises: the three defaults of an empty record. *)
Lemma normalize_message_defaults :
  normalize_message (VDict [])
  = Ok {| role := VStr (lit "assistant"); content := []; ts := 0 |}.
Proof. reflexivity. Qed.

End NormalizerProperties.

Lemma normalize_parts_and_milliseconds_witness :
  @normalize_message Reference.utc
    (VDict [(lit "content", VDict [(lit "parts", VList [VStr (lit "a"); VStr (lit "b")])])])
  = Ok {| role := VStr (lit "assistant"); content := lit "a" ++ [NL] ++ lit "b"; ts := 0 |}
  /\ content {| role := VStr (lit "assistant"); content := lit "a" ++ [NL] ++ lit "b"; ts := 0 |}
     = lit "a" ++ [NL] ++ lit "b"
  /\ @normalize_timestamp Reference.utc (VInt 1700000000000)
     = @normalize_timestamp Reference.utc (VInt 1700000000).
Proof.
  split; [reflexivity|].
  pose proof (@normalize_parts_and_milliseconds Reference.utc
    [(lit "content", VDict [(lit "parts", VList [VStr (lit "a"); VStr (lit "b")])])]
    [(lit "parts", VList [VStr (lit "a"); VStr (lit "b")])]
    {| role := VStr (lit "assistant"); content := lit "a" ++ [NL] ++ lit "b"; ts := 0 |}
    eq_refl eq_refl eq_refl) as H.
  split; [exact (proj1 H)|exact (proj1 (proj2 (proj2 H)))].
Defined.

(** ** Streaming value source *)

Section StreamProperties.
Context `{lib : PyLib}.

Lemma find_char_app_None (c : N) (a b : pystr) :
  find_char c a = None -> find_char c b = None -> find_char c (a ++ b) = None.
Proof.
  induction a as [|x a IH]; simpl; [auto|].
  destruct (x =? c)%N; [discriminate|].
  destruct (find_char c a); [discriminate|].
  intros _ Hb. rewrite (IH eq_refl Hb). reflexivity.
Qed.

Lemma find_array_start_None (f : list pystr) (buf : pystr) :
  find_char 91%N buf = None ->
  Forall (fun chunk => find_char 91%N chunk = None) f ->
  find_array_start f buf = None.
Proof.
  intros Hbuf Hf. revert buf Hbuf.
  induction Hf as [|chunk f Hc _ IH]; intros buf Hbuf; simpl; [reflexivity|].
  case_bool_decide; [reflexivity|].
  rewrite (find_char_app_None _ _ _ Hbuf Hc). apply IH.
  apply find_char_app_None; assumption.
Qed.

(** A stream without any opening bracket ends the sequence normally: the
    scan for the array start returns from the generator. *)
Lemma iter_json_array_without_bracket (fuel : nat) (f : list pystr) :
  Forall (fun chunk => find_char 91%N chunk = None) f ->
  iter_json_array fuel f = ([], Ok tt).
Proof.
  intros Hf. unfold iter_json_array.
  rewrite (find_array_start_None f [] eq_refl Hf). reflexivity.
Qed.

(** The three endings of the value loop on an exhausted stream: nothing
    buffered or a closing bracket end it normally, a value that does not
    decode raises. *)
Lemma iter_values_exhausted (fuel : nat) (buf : pystr) :
  iter_values (S fuel) [] buf
  = match lstrip_with is_separator buf with
    | [] => ([], Ok tt)
    | c :: rest =>
        if (c =? 93)%N then ([], Ok tt)
        else match raw_decode (c :: rest) with
             | None => ([], Raise JSONDecodeError)
             | Some (obj, idx) => gen_cons obj (iter_values fuel [] (drop idx (c :: rest)))
             end
    end.
Proof.
  simpl. destruct (lstrip_with is_separator buf) as [|c rest]; [reflexivity|].
  destruct (c =? 93)%N; [reflexivity|].
  destruct (raw_decode (c :: rest)) as [[obj idx]|]; reflexivity.
Qed.

(** On such a stream the month stage never turns to the bulk parse: the
    streaming load ends without an exception, and nothing is written. *)
Lemma load_without_bracket_skips_fallback (fuel : nat) (f : list pystr) (by_day : store) :
  Forall (fun chunk => find_char 91%N chunk = None) f ->
  load_conversations_stream fuel f = ([], Ok tt)
  /\ load_into_day_files fuel f by_day = (by_day, Ok O).
Proof.
  intros Hf.
  assert (E : load_conversations_stream fuel f = ([], Ok tt)).
  { unfold load_conversations_stream.
    rewrite (iter_json_array_without_bracket fuel f Hf). reflexivity. }
  split; [exact E|].
  unfold load_into_day_files. rewrite E. reflexivity.
Qed.

(** C4, at the input that refutes it: a document that is one object and
    holds no opening bracket.  The stream ends before any bracket is found,
    and the sequence ends normally, without a parse error; the month stage
    of [main], which turns to the bulk parse only on an exception, loads
    nothing. *)
Theorem iter_json_array_object_ends_normally (fuel : nat) (by_day : store) :
  iter_json_array fuel [lit "{" ++ quoted "title" ++ lit ": " ++ quoted "t" ++ lit "}"]
  = ([], Ok tt)
  /\ load_into_day_files fuel
       [lit "{" ++ quoted "title" ++ lit ": " ++ quoted "t" ++ lit "}"] by_day
     = (by_day, Ok O).
Proof.
  assert (H : Forall (fun chunk => find_char 91%N chunk = None)
                [lit "{" ++ quoted "title" ++ lit ": " ++ quoted "t" ++ lit "}"])
    by repeat constructor.
  split.
  - apply iter_json_array_without_bracket. exact H.
  - apply load_without_bracket_skips_fallback. exact H.
Qed.

End StreamProperties.

(** ** Sorting *)

Lemma insert_sorted_perm {A : Type} (leb : A -> A -> bool) (x : A) (l : list A) :
  insert_sorted leb x l ≡ₚ x :: l.
Proof.
  induction l as [|y l IH]; simpl; [reflexivity|].
  destruct (leb x y); [reflexivity|].
  rewrite IH. apply perm_swap.
Qed.

Lemma isort_perm {A : Type} (leb : A -> A -> bool) (l : list A) :
  isort leb l ≡ₚ l.
Proof.
  induction l as [|x l IH]; simpl; [reflexivity|].
  unfold isort in *. simpl. rewrite insert_sorted_perm, IH. reflexivity.
Qed.

Lemma elem_of_sorted_set (i : nat) (l : list nat) :
  i ∈ sorted_set l <-> i ∈ l.
Proof.
  unfold sorted_set. rewrite isort_perm. apply elem_of_remove_dups.
Qed.

Lemma StronglySorted_weaken {A : Type} (R R' : A -> A -> Prop) (l : list A) :
  (forall a b, R a b -> R' a b) -> StronglySorted R l -> StronglySorted R' l.
Proof.
  intros HR. induction 1 as [|x l Hl IH Hx]; constructor; [exact IH|].
  eapply Forall_impl; [exact Hx|]. auto.
Qed.

Lemma StronglySorted_filter {A : Type} (R : A -> A -> Prop) (P : A -> Prop)
    `{forall x, Decision (P x)} (l : list A) :
  StronglySorted R l -> StronglySorted R (filter P l).
Proof.
  induction 1 as [|y l Hl IH Hy].
  - constructor.
  - destruct (decide (P y)).
    + rewrite filter_cons_True by assumption. constructor; [exact IH|].
      apply Forall_forall. intros z Hz. apply list_elem_of_filter in Hz as [_ Hz].
      rewrite Forall_forall in Hy. apply Hy. exact Hz.
    + rewrite filter_cons_False by assumption. exact IH.
Qed.

(** Insertion sort sorts, for a total and transitive comparison. *)
Lemma isort_sorted {A : Type} (leb : A -> A -> bool) (l : list A) :
  (forall a b, leb a b = false -> leb b a = true) ->
  (forall a b c, leb a b = true -> leb b c = true -> leb a c = true) ->
  StronglySorted (fun a b => leb a b = true) (isort leb l).
Proof.
  intros Htotal Htrans. unfold isort.
  induction l as [|x l IH]; cbn [foldr]; [constructor|].
  revert IH. generalize (foldr (insert_sorted leb) [] l). clear l.
  intros l. induction 1 as [|y l Hl IH Hy]; cbn [insert_sorted].
  - repeat constructor.
  - destruct (leb x y) eqn:E.
    + constructor; [constructor; assumption|].
      constructor; [exact E|]. eapply Forall_impl; [exact Hy|].
      intros z Hz. exact (Htrans x y z E Hz).
    + constructor; [exact IH|].
      rewrite insert_sorted_perm. constructor; [apply Htotal; exact E|exact Hy].
Qed.

Lemma str_leb_total (a b : pystr) : str_leb a b = false -> str_leb b a = true.
Proof.
  revert b. induction a as [|x a IH]; intros [|y b]; cbn [str_leb]; try discriminate; auto.
  rewrite orb_false_iff, andb_false_iff, orb_true_iff, andb_true_iff.
  rewrite !N.ltb_ge, !N.eqb_neq, N.ltb_lt, N.eqb_eq.
  intros [Hge [Hne|Hrec]]; [left; lia|].
  destruct (N.eq_dec x y) as [->|Hne]; [right; auto|left; lia].
Qed.

Lemma str_leb_trans (a b c : pystr) :
  str_leb a b = true -> str_leb b c = true -> str_leb a c = true.
Proof.
  revert b c. induction a as [|x a IH]; intros [|y b] [|z c]; cbn [str_leb];
    try discriminate; auto.
  rewrite !orb_true_iff, !andb_true_iff, !N.ltb_lt, !N.eqb_eq.
  intros [H1|[-> H1]] [H2|[-> H2]]; [left; lia|left; lia|left; lia|].
  right. split; [reflexivity|]. exact (IH b c H1 H2).
Qed.

(** The directory listing comes in ascending order of the names. *)
Lemma listdir_sorted_ascending (suffix : pystr) (dir : store) :
  StronglySorted (fun a b => str_leb a b = true) (listdir_sorted suffix dir).
Proof.
  unfold listdir_sorted, sorted_names.
  apply isort_sorted; [apply str_leb_total|apply str_leb_trans].
Qed.

(** ** Topic segmenter *)

Section SegmenterProperties.
Context `{lib : PyLib}.

Lemma gap_reached_spec (gap a b : Z) :
  gap_reached gap (Some a) (Some b) = true <-> a <> 0 /\ b <> 0 /\ gap * 3600 <= b - a.
Proof.
  unfold gap_reached, truthy_ts.
  rewrite !andb_true_iff, !negb_true_iff, !Z.eqb_neq, Z.leb_le. tauto.
Qed.

Lemma boundaries_loop_spec (gap : Z) (triggers lines : list pystr) :
  forall (i : nat) (last : option Z) (markers : list nat) (k : nat),
    k ∈ boundaries_loop gap triggers i last markers lines <->
    k ∈ markers
    \/ exists (j : nat) (line : pystr),
         k = (i + j)%nat /\ lines !! j = Some line
         /\ (has_trigger triggers line = true
             \/ gap_reached gap (last_known_ts last (take j lines)) (line_timestamp line) = true).
Proof.
  induction lines as [|line rest IH]; intros i last markers k; simpl.
  - split; [auto|]. intros [H|(j & l & _ & H & _)]; [exact H|]. discriminate.
  - rewrite IH. clear IH.
    set (g := gap_reached gap last (line_timestamp line)).
    set (t := has_trigger triggers line).
    assert (Hm : k ∈ (if t then (if g then markers ++ [i] else markers) ++ [i]
                      else if g then markers ++ [i] else markers)
                 <-> k ∈ markers \/ (k = i /\ (t = true \/ g = true))).
    { destruct t, g; rewrite ?elem_of_app, ?list_elem_of_singleton; intuition congruence. }
    rewrite Hm. clear Hm. split.
    + intros [[H|(-> & H)]|(j & l & -> & Hl & H)].
      * left. exact H.
      * right. exists 0%nat, line. rewrite Nat.add_0_r. simpl. auto.
      * right. exists (S j), l. split; [lia|]. simpl. auto.
    + intros [H|(j & l & -> & Hl & H)]; [auto|].
      destruct j as [|j]; simpl in *.
      * injection Hl as <-. left. right. rewrite Nat.add_0_r. auto.
      * right. exists j, l. split; [lia|]. auto.
Qed.

(** Index 0 is a boundary for every input. *)
Lemma boundary_at_zero (lines : list pystr) (gap : Z) (triggers : list pystr) :
  0%nat ∈ detect_topic_boundaries lines gap triggers.
Proof.
  unfold detect_topic_boundaries. rewrite elem_of_sorted_set, elem_of_app.
  right. apply list_elem_of_singleton. reflexivity.
Qed.

(** C5, as the code has it: the boundaries are index 0, the lines holding a
    trigger, and the lines whose timestamp lies at least [gap_hours * 3600]
    seconds after the last known one; a timestamp of 0 counts as unknown,
    and a timestamp lying before the last known one opens no topic. *)
Theorem boundary_characterisation (lines : list pystr) (gap : Z)
    (triggers : list pystr) (i : nat) :
  (i ∈ detect_topic_boundaries lines gap triggers <->
   i = 0%nat
   \/ exists line : pystr,
        lines !! i = Some line
        /\ (has_trigger triggers line = true
            \/ gap_reached gap (last_known_ts None (take i lines)) (line_timestamp line) = true))
  /\ (forall a b : Z,
        gap_reached gap (Some a) (Some b) = true <-> a <> 0 /\ b <> 0 /\ gap * 3600 <= b - a)
  /\ (forall t : option Z, gap_reached gap None t = false /\ gap_reached gap t None = false).
Proof.
  split; [|split].
  - unfold detect_topic_boundaries.
    rewrite elem_of_sorted_set, elem_of_app, list_elem_of_singleton, boundaries_loop_spec.
    split.
    + intros [[H|(j & l & -> & Hl & H)]|H]; [by apply elem_of_nil in H| |auto].
      right. exists l. simpl. auto.
    + intros [H|(l & Hl & H)]; [auto|].
      left. right. exists i, l. auto.
  - apply gap_reached_spec.
  - intros t. split; [reflexivity|]. destruct t; reflexivity.
Qed.

End SegmenterProperties.

Section SingleTopic.
Context `{lib : PyLib}.

Lemma closely_spaced_intro (gap : Z) (tss : list Z) :
  Forall (fun t => t <> 0) tss ->
  (forall (i : nat) (a b : Z), tss !! i = Some a -> tss !! S i = Some b -> b - a < gap * 3600) ->
  closely_spaced gap None tss.
Proof.
  intros Hnz Hgap.
  cut (forall prev,
         match prev with
         | Some a => a <> 0 /\ forall b, tss !! 0%nat = Some b -> b - a < gap * 3600
         | None => True
         end -> closely_spaced gap prev tss).
  { intros H. apply (H None). exact I. }
  revert Hnz Hgap. induction tss as [|t rest IH]; intros Hnz Hgap prev Hprev; simpl; [exact I|].
  apply Forall_cons in Hnz as [Ht Hrest].
  split; [exact Ht|]. split.
  - destruct prev as [a|]; [|exact I]. destruct Hprev as [Ha Hb]. split; [exact Ha|].
    apply Hb. reflexivity.
  - apply IH.
    + exact Hrest.
    + intros i a b Ha Hb. apply (Hgap (S i) a b); assumption.
    + split; [exact Ht|]. intros b Hb. apply (Hgap 0%nat t b); [reflexivity|exact Hb].
Qed.

Lemma boundaries_loop_quiet (gap : Z) (triggers lines : list pystr) :
  forall (tss : list Z) (i : nat) (last : option Z) (markers : list nat),
    map line_timestamp lines = map Some tss ->
    closely_spaced gap last tss ->
    Forall (fun line => has_trigger triggers line = false) lines ->
    boundaries_loop gap triggers i last markers lines = markers.
Proof.
  induction lines as [|line rest IH]; intros tss i last markers Hts Hsp Htr; [reflexivity|].
  destruct tss as [|t tss]; [discriminate|].
  simpl in Hts. injection Hts as Ht Hts.
  destruct Hsp as (Hnz & Hprev & Hsp).
  apply Forall_cons in Htr as [Hline Htr].
  simpl. rewrite Ht, Hline.
  assert (Hg : gap_reached gap last (Some t) = false).
  { destruct last as [a|]; [|reflexivity].
    destruct Hprev as [Ha Hlt].
    destruct (gap_reached gap (Some a) (Some t)) eqn:E; [|reflexivity].
    apply gap_reached_spec in E. lia. }
  rewrite Hg.
  assert (Htt : truthy_ts (Some t) = true).
  { simpl. apply negb_true_iff, Z.eqb_neq. exact Hnz. }
  rewrite Htt. apply (IH tss); assumption.
Qed.

Lemma preview_lines_after_zero (lines : list pystr) :
  forall i idx : nat, preview_lines [0%nat] (S i) idx lines = map (fun l => l ++ [NL]) lines.
Proof.
  induction lines as [|line rest IH]; intros i idx; [reflexivity|].
  cbn [preview_lines map].
  rewrite bool_decide_eq_false_2 by (rewrite list_elem_of_singleton; discriminate).
  rewrite IH. reflexivity.
Qed.

(** C8, as the code has it: index 0 is a boundary for every input; and when
    every line carries a timestamp other than 0 (which the segmenter takes
    for unknown), each less than the gap after the one before, and no line
    holds a trigger, index 0 is the only boundary, and the preview is one
    topic header followed by all the lines. *)
Theorem single_topic_when_closely_spaced (lines : list pystr) (gap : Z)
    (triggers : list pystr) :
  0%nat ∈ detect_topic_boundaries lines gap triggers
  /\ forall tss : list Z,
       map line_timestamp lines = map Some tss ->
       Forall (fun t => t <> 0) tss ->
       (forall (i : nat) (a b : Z),
          tss !! i = Some a -> tss !! S i = Some b -> b - a < gap * 3600) ->
       Forall (fun line => has_trigger triggers line = false) lines ->
       detect_topic_boundaries lines gap triggers = [0%nat]
       /\ forall (first : pystr) (rest : list pystr),
            lines = first :: rest ->
            preview_lines (detect_topic_boundaries lines gap triggers) 0 0 lines
            = topic_header first 1 :: map (fun l => l ++ [NL]) lines.
Proof.
  split; [apply boundary_at_zero|].
  intros tss Hts Hnz Hgap Htr.
  assert (Hd : detect_topic_boundaries lines gap triggers = [0%nat]).
  { unfold detect_topic_boundaries.
    rewrite (boundaries_loop_quiet gap triggers lines tss 0 None []); auto.
    apply closely_spaced_intro; assumption. }
  split; [exact Hd|].
  intros first rest ->. rewrite Hd. simpl.
  rewrite preview_lines_after_zero. reflexivity.
Qed.

End SingleTopic.

(** Under UTC: the second line lies a whole day before the first, and it
    opens no topic. *)
Lemma backward_gap_opens_no_topic :
  @line_timestamp Reference.utc (lit "[2026-01-02 00:00:00] user: a") = Some 1767312000
  /\ @line_timestamp Reference.utc (lit "[2026-01-01 00:00:00] user: b") = Some 1767225600
  /\ 4 * 3600 <= Z.abs (1767225600 - 1767312000)
  /\ @detect_topic_boundaries Reference.utc
       [lit "[2026-01-02 00:00:00] user: a"; lit "[2026-01-01 00:00:00] user: b"]
       4 TOPIC_TRIGGERS_DEFAULT = [0%nat]
  /\ ~ 1%nat ∈ @detect_topic_boundaries Reference.utc
         [lit "[2026-01-02 00:00:00] user: a"; lit "[2026-01-01 00:00:00] user: b"]
         4 TOPIC_TRIGGERS_DEFAULT.
Proof.
  assert (H : @detect_topic_boundaries Reference.utc
                [lit "[2026-01-02 00:00:00] user: a"; lit "[2026-01-01 00:00:00] user: b"]
                4 TOPIC_TRIGGERS_DEFAULT = [0%nat]) by (vm_compute; reflexivity).
  repeat split; try (vm_compute; reflexivity); try exact H.
  - lia.
  - rewrite H. intros Hin. apply list_elem_of_singleton in Hin. discriminate.
Qed.

(** Eight hours ahead of UTC: three lines of one day, three hours apart,
    without a trigger; the middle one carries the timestamp 0, and the
    third opens a second topic. *)
Lemma epoch_line_splits_topic :
  map (@line_timestamp Reference.utc_plus_8)
      [lit "[1970-01-01 05:00:00] user: a"; lit "[1970-01-01 08:00:00] user: b";
       lit "[1970-01-01 11:00:00] user: c"]
  = [Some (-10800); Some 0; Some 10800]
  /\ forallb (fun line => negb (has_trigger TOPIC_TRIGGERS_DEFAULT line))
       [lit "[1970-01-01 05:00:00] user: a"; lit "[1970-01-01 08:00:00] user: b";
        lit "[1970-01-01 11:00:00] user: c"] = true
  /\ Z.abs (0 - -10800) < 4 * 3600 /\ Z.abs (10800 - 0) < 4 * 3600
  /\ @detect_topic_boundaries Reference.utc_plus_8
       [lit "[1970-01-01 05:00:00] user: a"; lit "[1970-01-01 08:00:00] user: b";
        lit "[1970-01-01 11:00:00] user: c"]
       4 TOPIC_TRIGGERS_DEFAULT = [0%nat; 2%nat].
Proof. repeat split; try (vm_compute; reflexivity); lia. Qed.

Lemma single_topic_when_closely_spaced_witness :
  @detect_topic_boundaries Reference.utc
    [lit "[2026-01-10 09:00:00] user: a"; lit "[2026-01-10 10:30:00] assistant: b"]
    4 TOPIC_TRIGGERS_DEFAULT = [0%nat]
  /\ forall (first : pystr) (rest : list pystr),
       [lit "[2026-01-10 09:00:00] user: a"; lit "[2026-01-10 10:30:00] assistant: b"]
       = first :: rest ->
       preview_lines
         (@detect_topic_boundaries Reference.utc
            [lit "[2026-01-10 09:00:00] user: a"; lit "[2026-01-10 10:30:00] assistant: b"]
            4 TOPIC_TRIGGERS_DEFAULT)
         0 0 [lit "[2026-01-10 09:00:00] user: a"; lit "[2026-01-10 10:30:00] assistant: b"]
       = topic_header first 1
         :: map (fun l => l ++ [NL])
              [lit "[2026-01-10 09:00:00] user: a"; lit "[2026-01-10 10:30:00] assistant: b"].
Proof.
  apply (proj2 (@single_topic_when_closely_spaced Reference.utc
                  [lit "[2026-01-10 09:00:00] user: a"; lit "[2026-01-10 10:30:00] assistant: b"]
                  4 TOPIC_TRIGGERS_DEFAULT)
               [1768035600; 1768041000]).
  - vm_compute. reflexivity.
  - repeat constructor; discriminate.
  - intros [|[|i]] a b; simpl; intros Ha Hb; try discriminate.
    injection Ha as <-. injection Hb as <-. lia.
  - repeat constructor.
Defined.

(** ** Topic splitter *)

Section SplitterProperties.

Lemma split_plain_lines (lines : list pystr) :
  forall st : split_state,
    Forall (fun l => ~ is_marker l) lines ->
    foldl split_step st lines
    = {| current := current st; buffer := buffer st ++ lines; by_topic := by_topic st |}.
Proof.
  induction lines as [|l lines IH]; intros st H; simpl.
  - rewrite app_nil_r. destruct st; reflexivity.
  - apply Forall_cons in H as [Hl H]. rewrite (IH _ H).
    unfold split_step. destruct (startswith topic_start l); [contradiction Hl; reflexivity|].
    simpl. rewrite <- app_assoc. reflexivity.
Qed.

Lemma flush_untitled (st : split_state) :
  current st = None \/ current st = Some [] -> flush st = st.
Proof. intros [H|H]; unfold flush; rewrite H; reflexivity. Qed.

Lemma split_untitled_lines (lines : list pystr) :
  forall st : split_state,
    current st = None \/ current st = Some [] ->
    Forall (fun l => is_marker l -> marker_title l = []) lines ->
    let st' := foldl split_step st lines in
    (current st' = None \/ current st' = Some [])
    /\ buffer st' = buffer st ++ filter (fun l => ~ is_marker l) lines
    /\ by_topic st' = by_topic st.
Proof.
  induction lines as [|l lines IH]; intros st Hst H; cbn [foldl].
  - rewrite filter_nil, app_nil_r. auto.
  - apply Forall_cons in H as [Hl H].
    assert (Hstep : (current (split_step st l) = None \/ current (split_step st l) = Some [])
                    /\ buffer (split_step st l)
                       = buffer st ++ filter (fun l => ~ is_marker l) [l]
                    /\ by_topic (split_step st l) = by_topic st).
    { unfold split_step. destruct (startswith topic_start l) eqn:E.
      - rewrite (flush_untitled st Hst). cbn [current buffer by_topic].
        rewrite filter_cons_False, filter_nil, app_nil_r by (rewrite E; auto).
        rewrite (Hl eq_refl). auto.
      - cbn [current buffer by_topic].
        rewrite filter_cons_True, filter_nil by (rewrite E; discriminate). auto. }
    destruct Hstep as (Hc & Hb & Hd).
    destruct (IH (split_step st l) Hc H) as (Hc' & Hb' & Hd').
    split; [exact Hc'|]. split; [|congruence].
    rewrite Hb', Hb, <- app_assoc. f_equal.
    change (l :: lines) with ([l] ++ lines). rewrite filter_app. reflexivity.
Qed.

(** C10: the lines before the first marker stay in the buffer, because a
    flush without a title returns before the buffer is cleared; the first
    flush that writes a document, at the next marker or at the end of the
    input, writes them at the start of its body.  ([mid] holds what may lie
    between the first marker and the first marker with a title.) *)
Theorem leading_lines_open_first_document (pre mid seg : list pystr) (m1 : pystr)
    (dir : store) :
  Forall (fun l => ~ is_marker l) pre ->
  Forall (fun l => is_marker l -> marker_title l = []) mid ->
  is_marker m1 ->
  marker_title m1 <> [] ->
  Forall (fun l => ~ is_marker l) seg ->
  let start := {| current := None; buffer := []; by_topic := dir |} in
  let body := pre ++ filter (fun l => ~ is_marker l) mid ++ seg in
  let document := front_matter (marker_title m1) ++ map (fun ln => ln ++ [NL]) body in
  let written := <[topic_filename (marker_title m1) ++ lit ".md" := document]> dir in
  foldl split_step start (pre ++ mid ++ m1 :: seg)
  = {| current := Some (marker_title m1); buffer := body; by_topic := dir |}
  /\ split_documents (pre ++ mid ++ m1 :: seg) dir = written
  /\ forall m2 : pystr,
       is_marker m2 ->
       foldl split_step start (pre ++ mid ++ m1 :: seg ++ [m2])
       = {| current := Some (marker_title m2); buffer := []; by_topic := written |}.
Proof.
  intros Hpre Hmid Hm1 Ht Hseg start body document written.
  assert (Hrun : foldl split_step start (pre ++ mid ++ m1 :: seg)
                 = {| current := Some (marker_title m1); buffer := body; by_topic := dir |}).
  { rewrite !foldl_app. rewrite (split_plain_lines pre start Hpre).
    cbn [current buffer by_topic start app].
    pose proof (split_untitled_lines mid
                  {| current := None; buffer := pre; by_topic := dir |}
                  (or_introl eq_refl) Hmid) as (Hc & Hb & Hd).
    destruct (foldl split_step _ mid) as [c b d].
    cbn [current buffer by_topic] in Hc, Hb, Hd. subst b d.
    cbn [foldl]. unfold split_step at 2. rewrite Hm1.
    rewrite (flush_untitled {| current := c; buffer := _; by_topic := dir |} Hc).
    cbn [current buffer by_topic].
    rewrite (split_plain_lines seg _ Hseg). cbn [current buffer by_topic].
    unfold body. rewrite <- app_assoc. reflexivity. }
  assert (Hflush : flush {| current := Some (marker_title m1); buffer := body; by_topic := dir |}
                   = {| current := Some (marker_title m1); buffer := []; by_topic := written |}).
  { unfold flush. cbn [current buffer by_topic].
    destruct (marker_title m1) eqn:E; [contradiction|]. reflexivity. }
  split; [exact Hrun|]. split.
  - unfold split_documents. fold start. rewrite Hrun, Hflush. reflexivity.
  - intros m2 Hm2.
    replace (pre ++ mid ++ m1 :: seg ++ [m2]) with ((pre ++ mid ++ m1 :: seg) ++ [m2])
      by (rewrite <- !app_assoc; reflexivity).
    rewrite foldl_app, Hrun. cbn [foldl]. unfold split_step. rewrite Hm2, Hflush. reflexivity.
Qed.

End SplitterProperties.

Lemma leading_lines_open_first_document_witness :
  split_documents
    ([lit "a line before any marker"] ++ [] ++
     lit "[TOPIC_START] 2026-01-10 Topic-001" :: [lit "[2026-01-10 09:00:00] user: hi"]) ∅
  = <[topic_filename (strip (replace topic_start [] (lit "[TOPIC_START] 2026-01-10 Topic-001")))
      ++ lit ".md"
      := front_matter (strip (replace topic_start [] (lit "[TOPIC_START] 2026-01-10 Topic-001")))
         ++ map (fun ln => ln ++ [NL])
              ([lit "a line before any marker"] ++ filter (fun l => ~ startswith topic_start l = true) []
               ++ [lit "[2026-01-10 09:00:00] user: hi"])]> ∅.
Proof.
  apply (leading_lines_open_first_document
           [lit "a line before any marker"] []
           [lit "[2026-01-10 09:00:00] user: hi"]
           (lit "[TOPIC_START] 2026-01-10 Topic-001") ∅).
  - repeat constructor. vm_compute. discriminate.
  - constructor.
  - vm_compute. reflexivity.
  - vm_compute. discriminate.
  - repeat constructor. vm_compute. discriminate.
Defined.

(** ** Conversation linearizer *)

Lemma foldM_invariant {A B : Type} (P : B -> Prop) (f : B -> A -> result B) (l : list A) :
  forall (b r : B),
    P b ->
    (forall b a b', P b -> f b a = Ok b' -> P b') ->
    foldM f b l = Ok r -> P r.
Proof.
  induction l as [|a l IH]; intros b r Hb Hstep; simpl.
  - intros [= <-]. exact Hb.
  - destruct (f b a) as [b'| |] eqn:E; simpl; try discriminate.
    apply IH; [eapply Hstep; eassumption|exact Hstep].
Qed.

Lemma dict_lookup_is_Some (mapping : pydict) (s : pystr) :
  is_Some (dict_lookup s mapping) <-> s ∈ keyset mapping.
Proof.
  unfold keyset. rewrite elem_of_list_to_set.
  induction mapping as [|[k v] mapping IH]; simpl.
  - split; [intros [x H]; discriminate|intros H; by apply elem_of_nil in H].
  - unfold str_eqb. rewrite elem_of_cons. case_bool_decide as E.
    + split; [auto|eauto].
    + rewrite IH. split; [auto|]. intros [H|H]; [contradiction|exact H].
Qed.

Lemma dict_contains_true (mapping : pydict) (k : pyval) :
  dict_contains mapping k = Ok true ->
  exists s : pystr, k = VStr s /\ s ∈ keyset mapping.
Proof.
  destruct k; simpl; try discriminate.
  intros [= H]. apply bool_decide_eq_true in H.
  eexists. split; [reflexivity|]. apply dict_lookup_is_Some. exact H.
Qed.

Lemma size_keyset (mapping : pydict) : (size (keyset mapping) <= length mapping)%nat.
Proof.
  unfold keyset. induction mapping as [|[k v] mapping IH]; cbn [map length fst].
  - rewrite list_to_set_nil, size_empty. lia.
  - rewrite list_to_set_cons, size_union_alt, size_singleton.
    pose proof (subseteq_size (list_to_set (map fst mapping) ∖ {[k]})
                  (list_to_set (map fst mapping) : gset pystr)) as H.
    specialize (H ltac:(set_solver)). lia.
Qed.

Section LinearizerProperties.
Context `{lib : PyLib}.

(** The active-path walk never runs out of fuel: every pass adds a key of
    the mapping that was not seen before. *)
Lemma collect_path_loop_terminates (mapping : pydict) (fuel : nat) :
  forall (node_id : pyval) (seen : gset pystr) (ids : list pystr),
    (size (keyset mapping ∖ seen) < fuel)%nat ->
    collect_path_loop fuel mapping node_id seen ids <> OutOfFuel.
Proof.
  induction fuel as [|fuel IH]; intros node_id seen ids Hsize; [lia|].
  simpl. destruct (truthy node_id); simpl; [|discriminate].
  destruct (set_contains seen node_id) as [visited| |] eqn:Hseen; simpl; try discriminate;
    [|destruct node_id; discriminate].
  destruct visited; [discriminate|].
  destruct (dict_contains mapping node_id) as [known| |] eqn:Hknown; simpl; try discriminate;
    [|destruct node_id; discriminate].
  destruct known; simpl; [|discriminate].
  apply dict_contains_true in Hknown as (id & -> & Hid).
  simpl in Hseen. injection Hseen as Hseen. apply bool_decide_eq_false in Hseen.
  destruct (node_parent mapping id) as [parent| |] eqn:Hp; simpl; try discriminate.
  - apply IH.
    assert (keyset mapping ∖ ({[id]} ∪ seen) ⊂ keyset mapping ∖ seen) as Hsub by set_solver.
    apply subset_size in Hsub. lia.
  - unfold node_parent, py_get in Hp. destruct (py_or _ _); discriminate.
Qed.

Lemma collect_path_loop_walk (mapping : pydict) (fuel : nat) :
  forall (node_id : pyval) (seen : gset pystr) (ids out : list pystr),
    collect_path_loop fuel mapping node_id seen ids = Ok out ->
    exists (more : list pystr) (p : pyval),
      out = ids ++ more
      /\ NoDup more
      /\ (forall x, x ∈ more -> x ∈ keyset mapping /\ x ∉ seen)
      /\ parent_chain mapping more
      /\ match more with [] => p = node_id | first :: _ => node_id = VStr first end
      /\ (forall l, last more = Some l -> node_parent mapping l = Ok p)
      /\ (truthy p = false
          \/ (exists s : pystr, p = VStr s /\ (s ∈ seen \/ s ∈ more))
          \/ dict_contains mapping p = Ok false).
Proof.
  induction fuel as [|fuel IH]; intros node_id seen ids out; [discriminate|].
  simpl.
  assert (Hstop : forall why : truthy node_id = false
                              \/ (exists s, node_id = VStr s /\ (s ∈ seen \/ s ∈ []))
                              \/ dict_contains mapping node_id = Ok false,
             Ok ids = Ok out ->
             exists more p, out = ids ++ more /\ NoDup more
               /\ (forall x, x ∈ more -> x ∈ keyset mapping /\ x ∉ seen)
               /\ parent_chain mapping more
               /\ match more with [] => p = node_id | first :: _ => node_id = VStr first end
               /\ (forall l, last more = Some l -> node_parent mapping l = Ok p)
               /\ (truthy p = false
                   \/ (exists s : pystr, p = VStr s /\ (s ∈ seen \/ s ∈ more))
                   \/ dict_contains mapping p = Ok false)).
  { intros why [= <-]. exists [], node_id. rewrite app_nil_r.
    split; [reflexivity|]. split; [constructor|]. split.
    { intros x Hx. by apply elem_of_nil in Hx. }
    split; [exact I|]. split; [reflexivity|]. split; [|exact why].
    intros l Hl. discriminate. }
  destruct (truthy node_id) eqn:Htruthy; simpl; [|apply Hstop; auto].
  destruct (set_contains seen node_id) as [visited| |] eqn:Hseen; simpl; try discriminate.
  destruct visited.
  { apply Hstop. right. left. destruct node_id; try discriminate.
    simpl in Hseen. injection Hseen as Hseen. apply bool_decide_eq_true in Hseen. eauto. }
  destruct (dict_contains mapping node_id) as [known| |] eqn:Hknown; simpl; try discriminate.
  destruct known; simpl; [|apply Hstop; auto].
  clear Hstop.
  apply dict_contains_true in Hknown as (id & -> & Hid).
  simpl in Hseen. injection Hseen as Hseen. apply bool_decide_eq_false in Hseen.
  destruct (node_parent mapping id) as [parent| |] eqn:Hp; simpl; try discriminate.
  intros Hrec. apply IH in Hrec as (more & p & -> & Hnd & Hin & Hchain & Hfirst & Hlast & Hend).
  exists (id :: more), p. rewrite <- app_assoc. split; [reflexivity|].
  split; [|split; [|split; [|split; [|split]]]].
  - constructor; [|exact Hnd]. intros Hx. apply Hin in Hx as [_ Hx]. set_solver.
  - intros x Hx. apply elem_of_cons in Hx as [->|Hx]; [auto|].
    apply Hin in Hx as [Hk Hs]. split; [exact Hk|set_solver].
  - destruct more as [|b more]; [exact I|]. simpl. split; [|exact Hchain]. congruence.
  - reflexivity.
  - intros l Hl. destruct more as [|b more].
    + simpl in Hl. injection Hl as <-. congruence.
    + apply Hlast. exact Hl.
  - destruct Hend as [H|[(s & -> & H)|H]]; [auto| |auto].
    right. left. exists s. split; [reflexivity|].
    rewrite elem_of_cons. set_solver.
Qed.

Lemma collect_path_terminates (conv : pyval) (mapping : pydict) :
  collect_path_from_current_node conv mapping <> OutOfFuel.
Proof.
  unfold collect_path_from_current_node.
  destruct (py_get conv (lit "current_node") VNone) as [node_id| |] eqn:Hcur;
    [|discriminate|destruct conv; discriminate].
  cbn [mbind result_bind].
  destruct (truthy node_id); cbn [negb]; [|discriminate].
  destruct (dict_contains mapping node_id) as [known| |] eqn:Hknown; cbn [mbind result_bind];
    [|discriminate|destruct node_id; discriminate].
  destruct known; cbn [negb]; [|discriminate].
  pose proof (collect_path_loop_terminates mapping (S (length mapping)) node_id ∅ []) as Hterm.
  destruct (collect_path_loop _ _ _ _ _); [discriminate|discriminate|].
  exfalso. apply Hterm; [|reflexivity].
  pose proof (size_keyset mapping).
  pose proof (subseteq_size (keyset mapping ∖ ∅) (keyset mapping) ltac:(set_solver)). lia.
Qed.

End LinearizerProperties.

Lemma rev_is_reverse {A : Type} (l : list A) : rev l = reverse l.
Proof. unfold reverse. apply rev_alt. Qed.

Section ActivePath.
Context `{lib : PyLib}.

(** C6: on every mapping the active-path walk ends (the fuel of the model
    is never used up); the identifiers it returns are keys of the mapping
    without a repetition, each the parent of the next, the last one the
    declared current node; and the walk stopped above the first one
    because its parent is absent, already visited, or not in the mapping. *)
Theorem active_path_terminates_without_revisit (conv : pyval) (mapping : pydict) :
  collect_path_from_current_node conv mapping <> OutOfFuel
  /\ forall ids : list pystr,
       collect_path_from_current_node conv mapping = Ok ids ->
       NoDup ids
       /\ (forall x, x ∈ ids -> x ∈ keyset mapping)
       /\ parent_chain mapping (rev ids)
       /\ (forall leaf, last ids = Some leaf ->
             py_get conv (lit "current_node") VNone = Ok (VStr leaf))
       /\ (forall root, head ids = Some root ->
             exists p, node_parent mapping root = Ok p /\ walk_stops_at mapping ids p).
Proof.
  split; [apply collect_path_terminates|].
  unfold collect_path_from_current_node.
  destruct (py_get conv (lit "current_node") VNone) as [node_id| |] eqn:Hcur;
    [|intros ids; discriminate|intros ids; discriminate].
  cbn [mbind result_bind].
  assert (Hnil : forall ids : list pystr, Ok [] = Ok ids ->
            NoDup ids /\ (forall x, x ∈ ids -> x ∈ keyset mapping)
            /\ parent_chain mapping (rev ids)
            /\ (forall leaf, last ids = Some leaf -> Ok node_id = Ok (VStr leaf))
            /\ (forall root, head ids = Some root ->
                  exists p, node_parent mapping root = Ok p /\ walk_stops_at mapping ids p)).
  { intros ids [= <-]. split; [constructor|]. split.
    { intros x Hx. by apply elem_of_nil in Hx. }
    split; [exact I|]. split; intros ? ?; discriminate. }
  destruct (truthy node_id); cbn [negb]; [|exact Hnil].
  destruct (dict_contains mapping node_id) as [known| |] eqn:Hknown; cbn [mbind result_bind];
    [|intros ids; discriminate|intros ids; discriminate].
  destruct known; cbn [negb]; [|exact Hnil].
  clear Hnil. intros ids.
  destruct (collect_path_loop _ _ _ _ _) as [walk| |] eqn:Hloop; try discriminate.
  intros [= <-].
  apply collect_path_loop_walk in Hloop
    as (more & p & -> & Hnd & Hin & Hchain & Hfirst & Hlast & Hend).
  cbn [app] in *. rewrite rev_involutive, rev_is_reverse.
  split; [|split; [|split; [|split]]].
  - rewrite reverse_Permutation. exact Hnd.
  - intros x Hx. rewrite elem_of_reverse in Hx. apply Hin. exact Hx.
  - exact Hchain.
  - intros leaf Hleaf. rewrite last_reverse in Hleaf.
    destruct more as [|first more]; [discriminate|].
    injection Hleaf as <-. congruence.
  - intros root Hroot. rewrite head_reverse in Hroot.
    exists p. split; [apply Hlast; exact Hroot|].
    destruct Hend as [H|[(s & -> & [H|H])|H]].
    + left. exact H.
    + set_solver.
    + right. left. exists s. split; [reflexivity|]. rewrite elem_of_reverse. exact H.
    + right. right. exact H.
Qed.

End ActivePath.

Lemma active_path_terminates_without_revisit_witness :
  collect_path_from_current_node
    (VDict [(lit "current_node", VStr (lit "a"))])
    [(lit "a", VDict [(lit "parent", VStr (lit "b"))]);
     (lit "b", VDict [(lit "parent", VStr (lit "a"))])]
  = Ok [lit "b"; lit "a"]
  /\ NoDup [lit "b"; lit "a"].
Proof.
  split; [vm_compute; reflexivity|].
  exact (proj1 (proj2 (active_path_terminates_without_revisit
                         (VDict [(lit "current_node", VStr (lit "a"))])
                         [(lit "a", VDict [(lit "parent", VStr (lit "b"))]);
                          (lit "b", VDict [(lit "parent", VStr (lit "a"))])])
                      [lit "b"; lit "a"] ltac:(vm_compute; reflexivity))).
Defined.

(** *** No call of the linearizer runs out of fuel *)

Lemma bind_terminates {A B : Type} (m : result A) (f : A -> result B) :
  terminates m -> (forall a, m = Ok a -> terminates (f a)) -> terminates (m ≫= f).
Proof.
  unfold terminates. destruct m as [a| |]; simpl; intros Hm Hf;
    [apply Hf; reflexivity|discriminate|contradiction].
Qed.

Lemma foldM_terminates {A B : Type} (f : B -> A -> result B) (l : list A) :
  (forall b a, terminates (f b a)) -> forall b, terminates (foldM f b l).
Proof.
  intros Hf. induction l as [|a l IH]; intros b; simpl; [discriminate|].
  apply bind_terminates; [apply Hf|]. intros b' _. apply IH.
Qed.

Lemma py_get_terminates (v : pyval) (k : pystr) (d : pyval) : terminates (py_get v k d).
Proof. destruct v; discriminate. Qed.

Lemma py_iter_terminates (v : pyval) : terminates (py_iter v).
Proof. destruct v; discriminate. Qed.

Lemma dict_contains_terminates (m : pydict) (k : pyval) : terminates (dict_contains m k).
Proof. destruct k; discriminate. Qed.

Lemma int_of_float_terminates (t : float) : terminates (int_of_float t).
Proof. unfold int_of_float. destruct (Prim2SF t) as [| | |[]]; discriminate. Qed.

Create HintDb fuel.
#[local] Hint Resolve py_get_terminates py_iter_terminates dict_contains_terminates
  int_of_float_terminates : fuel.

Section Termination.
Context `{lib : PyLib}.

Lemma normalize_timestamp_terminates (v : pyval) : terminates (normalize_timestamp v).
Proof.
  unfold normalize_timestamp.
  destruct v; try discriminate; destruct (try_float _); try discriminate; auto with fuel.
Qed.

Lemma raw_timestamp_terminates (msg : pyval) : terminates (raw_timestamp msg).
Proof.
  unfold raw_timestamp. apply bind_terminates; [auto with fuel|]. intros t _.
  destruct (truthy t); [discriminate|].
  apply bind_terminates; [auto with fuel|]. intros m _.
  apply bind_terminates; [auto with fuel|]. intros t' _.
  destruct (truthy t'); [discriminate|auto with fuel].
Qed.

Lemma normalize_message_terminates (msg : pyval) : terminates (normalize_message msg).
Proof.
  unfold normalize_message. destruct msg; try discriminate.
  apply bind_terminates; [auto with fuel|]. intros r _.
  apply bind_terminates; [apply raw_timestamp_terminates|]. intros t _.
  apply bind_terminates; [unfold strip_content; destruct (py_or _ _); discriminate|].
  intros c _.
  apply bind_terminates; [apply normalize_timestamp_terminates|]. discriminate.
Qed.

Lemma get_node_message_timestamp_terminates (node : pyval) :
  terminates (get_node_message_timestamp node).
Proof.
  unfold get_node_message_timestamp. destruct (truthy node); [|discriminate].
  cbn [negb]. apply bind_terminates; [auto with fuel|]. intros m _.
  destruct (truthy m); [|discriminate]. cbn [negb].
  apply bind_terminates; [apply raw_timestamp_terminates|]. intros t _.
  apply normalize_timestamp_terminates.
Qed.

Lemma path_to_messages_terminates (mapping : pydict) (ids : list pystr) :
  terminates (path_to_messages mapping ids).
Proof.
  unfold path_to_messages. apply foldM_terminates. intros out pid.
  apply bind_terminates; [auto with fuel|]. intros msg _.
  destruct (truthy msg); [|discriminate]. cbn [negb].
  apply bind_terminates; [apply normalize_message_terminates|]. intros m _.
  case_bool_decide; discriminate.
Qed.

(** The subtree timestamp never runs out of fuel: every nested call has
    put one more key of the mapping on the stack. *)
Lemma get_latest_subtree_timestamp_terminates (mapping : pydict) (fuel : nat) :
  forall (node_id : pyval) (cache : gmap pystr Z) (stack : gset pystr),
    (size (keyset mapping ∖ stack) < fuel)%nat ->
    terminates (get_latest_subtree_timestamp fuel mapping node_id cache stack).
Proof.
  induction fuel as [|fuel IH]; intros node_id cache stack Hsize; [lia|].
  cbn [get_latest_subtree_timestamp].
  destruct (truthy node_id); cbn [negb]; [|discriminate].
  destruct (dict_contains mapping node_id) as [known| |] eqn:Hknown;
    cbn [mbind result_bind]; [|discriminate|destruct node_id; discriminate].
  destruct known; cbn [negb]; [|discriminate].
  apply dict_contains_true in Hknown as (id & -> & Hid).
  destruct (cache !! id); [discriminate|].
  case_bool_decide as Hstack.
  - apply bind_terminates; [apply get_node_message_timestamp_terminates|]. discriminate.
  - apply bind_terminates; [apply get_node_message_timestamp_terminates|]. intros best _.
    apply bind_terminates; [auto with fuel|]. intros ch _.
    apply bind_terminates; [auto with fuel|]. intros children _.
    apply bind_terminates.
    + apply foldM_terminates. intros [b c] child.
      apply bind_terminates.
      * apply IH.
        assert (keyset mapping ∖ ({[id]} ∪ stack) ⊂ keyset mapping ∖ stack) as Hsub
          by set_solver.
        apply subset_size in Hsub. lia.
      * intros [t c'] _. discriminate.
    + intros [b c] _. discriminate.
Qed.

Lemma pick_child_terminates (mapping : pydict) (st : option pystr * Z * gmap pystr Z)
    (child_id : pyval) :
  terminates (pick_child mapping st child_id).
Proof.
  unfold pick_child. destruct st as [[next_id best_ts] cache].
  apply bind_terminates; [auto with fuel|]. intros known _.
  destruct known; cbn [negb]; [|discriminate].
  apply bind_terminates.
  - apply get_latest_subtree_timestamp_terminates.
    pose proof (size_keyset mapping).
    pose proof (subseteq_size (keyset mapping ∖ ∅) (keyset mapping) ltac:(set_solver)). lia.
  - intros [t c] _. destruct child_id; try discriminate.
    destruct (_ || _); discriminate.
Qed.

Lemma latest_branch_loop_terminates (mapping : pydict) (fuel : nat) :
  forall (node_id : pystr) (visited : gset pystr) (cache : gmap pystr Z) (ids : list pystr),
    (size (keyset mapping ∖ visited) < fuel)%nat ->
    terminates (latest_branch_loop fuel mapping node_id visited cache ids).
Proof.
  induction fuel as [|fuel IH]; intros node_id visited cache ids Hsize; [lia|].
  cbn [latest_branch_loop].
  destruct (bool_decide (node_id = [])) eqn:E1; cbn [orb]; [discriminate|].
  destruct (bool_decide (node_id ∈ visited)) eqn:E2; cbn [orb]; [discriminate|].
  destruct (bool_decide (is_Some (dict_lookup node_id mapping))) eqn:E3; cbn [negb];
    [|discriminate].
  apply bool_decide_eq_false in E2. apply bool_decide_eq_true in E3.
  apply dict_lookup_is_Some in E3.
  apply bind_terminates; [auto with fuel|]. intros ch _.
  destruct (truthy (py_or ch (VList []))); cbn [negb]; [|discriminate].
  apply bind_terminates; [auto with fuel|]. intros children _.
  apply bind_terminates; [apply foldM_terminates; apply pick_child_terminates|].
  intros [[next_id best] cache'] _.
  destruct next_id as [n|]; [|discriminate].
  destruct (bool_decide (n = [])); [discriminate|].
  apply IH.
  assert (keyset mapping ∖ ({[node_id]} ∪ visited) ⊂ keyset mapping ∖ visited) as Hsub
    by set_solver.
  apply subset_size in Hsub. lia.
Qed.

Lemma find_root_terminates (mapping : pydict) (ids : list pystr) :
  terminates (find_root mapping ids).
Proof.
  induction ids as [|i ids IH]; simpl; [discriminate|].
  apply bind_terminates; [unfold node_parent; auto with fuel|]. intros p _.
  destruct p; try discriminate;
    (apply bind_terminates; [auto with fuel|]; intros [] _; [exact IH|discriminate]).
Qed.

Lemma collect_latest_branch_path_terminates (mapping : pydict) :
  terminates (collect_latest_branch_path mapping).
Proof.
  unfold collect_latest_branch_path.
  destruct (map fst mapping) as [|first rest] eqn:E; [discriminate|].
  rewrite <- E.
  apply bind_terminates; [apply find_root_terminates|]. intros r _.
  apply latest_branch_loop_terminates.
  pose proof (size_keyset mapping).
  pose proof (subseteq_size (keyset mapping ∖ ∅) (keyset mapping) ltac:(set_solver)). lia.
Qed.

(** The linearizer returns or raises on every conversation object. *)
Lemma linearize_conversation_terminates (conv : pyval) :
  terminates (linearize_conversation conv).
Proof.
  unfold linearize_conversation. destruct (truthy conv); cbn [negb]; [|discriminate].
  apply bind_terminates; [auto with fuel|]. intros m _.
  destruct (truthy m); cbn [negb]; [|discriminate].
  destruct m; try discriminate.
  apply bind_terminates.
  { unfold primary_candidate. apply bind_terminates.
    - apply collect_path_terminates.
    - intros ids _. apply path_to_messages_terminates. }
  intros primary _. apply bind_terminates; [|discriminate].
  unfold fallback_candidate. apply bind_terminates.
  - apply collect_latest_branch_path_terminates.
  - intros ids _. apply path_to_messages_terminates.
Qed.

End Termination.

(** *** Reconciliation of the two candidates *)

Section Reconciliation.
Context `{lib : PyLib}.

Lemma reconcile_cases (primary fallback : list NormalizedMessage) :
  (primary = [] -> reconcile primary fallback = fallback)
  /\ (primary <> [] -> (length fallback <= length primary)%nat ->
      reconcile primary fallback = primary)
  /\ ((length primary < length fallback)%nat -> reconcile primary fallback = fallback).
Proof.
  unfold reconcile. destruct primary as [|m primary]; [split; [auto|split; [congruence|auto]]|].
  destruct (length (m :: primary) <? length fallback)%nat eqn:E.
  - apply Nat.ltb_lt in E. split; [discriminate|]. split; [lia|auto].
  - apply Nat.ltb_ge in E. split; [discriminate|]. split; [auto|lia].
Qed.

(** C1: when both candidates are computed, the linearizer returns the
    latest-branch candidate if the active-path candidate is empty, the
    active-path candidate itself if it is non-empty and at least as long,
    and the latest-branch candidate only if that one is strictly longer. *)
Theorem linearizer_reconciles_candidates (conv mapping : pydict)
    (primary fallback : list NormalizedMessage) :
  dict_lookup (lit "mapping") conv = Some (VDict mapping) ->
  mapping <> [] ->
  primary_candidate (VDict conv) mapping = Ok primary ->
  fallback_candidate mapping = Ok fallback ->
  exists out : list NormalizedMessage,
    linearize_conversation (VDict conv) = Ok out
    /\ (primary = [] -> out = fallback)
    /\ (primary <> [] -> (length fallback <= length primary)%nat -> out = primary)
    /\ ((length primary < length fallback)%nat -> out = fallback).
Proof.
  intros Hmap Hne Hp Hf.
  exists (reconcile primary fallback). split; [|apply reconcile_cases].
  unfold linearize_conversation.
  destruct conv as [|kv conv]; [discriminate|].
  cbn [truthy negb]. unfold py_get, dict_get. rewrite Hmap.
  cbn [default from_option id mbind result_bind].
  destruct mapping as [|n mapping]; [contradiction|].
  cbn [truthy negb]. rewrite Hp, Hf. reflexivity.
Qed.

(** *** Which messages a conversation keeps *)

Lemma path_to_messages_nonempty (mapping : pydict) (ids : list pystr)
    (out : list NormalizedMessage) :
  path_to_messages mapping ids = Ok out -> Forall (fun m => content m <> []) out.
Proof.
  unfold path_to_messages.
  apply (foldM_invariant (Forall (fun m => content m <> []))); [constructor|].
  intros b pid b' Hb.
  destruct (py_get _ (lit "message") VNone) as [msg| |]; simpl; try discriminate.
  destruct (truthy msg); simpl; [|intros [= <-]; exact Hb].
  destruct (normalize_message msg) as [m| |]; simpl; try discriminate.
  case_bool_decide as E; intros [= <-]; [exact Hb|].
  apply Forall_app. split; [exact Hb|]. constructor; [exact E|constructor].
Qed.

Lemma linearize_conversation_nonempty (conv : pyval) (msgs : list NormalizedMessage) :
  linearize_conversation conv = Ok msgs -> Forall (fun m => content m <> []) msgs.
Proof.
  unfold linearize_conversation.
  destruct (truthy conv); cbn [negb]; [|intros [= <-]; constructor].
  destruct (py_get conv (lit "mapping") VNone) as [m| |]; simpl; try discriminate.
  destruct (truthy m); cbn [negb]; [|intros [= <-]; constructor].
  destruct m; try discriminate.
  unfold primary_candidate, fallback_candidate.
  destruct (collect_path_from_current_node _ _) as [pids| |]; simpl; try discriminate.
  destruct (path_to_messages d pids) as [primary| |] eqn:Hp; simpl; try discriminate.
  destruct (collect_latest_branch_path d) as [fids| |]; simpl; try discriminate.
  destruct (path_to_messages d fids) as [fallback| |] eqn:Hf; simpl; try discriminate.
  intros [= <-].
  apply path_to_messages_nonempty in Hp, Hf.
  unfold reconcile. destruct primary; [exact Hf|].
  destruct (_ <? _)%nat; assumption.
Qed.

Lemma yielded_from (conversations : list pyval) (c : Conversation) :
  c ∈ (yield_conversations conversations).1 ->
  exists conv, conv ∈ conversations /\ conversation_messages conv = Ok (messages c).
Proof.
  induction conversations as [|conv rest IH]; simpl.
  - intros H. by apply elem_of_nil in H.
  - destruct (conversation_messages conv) as [[|m ms]| |] eqn:E.
    + intros H. destruct (IH H) as (x & Hx & Hm). exists x. split; [by right|exact Hm].
    + destruct (py_get conv (lit "title") VNone) as [t| |]; simpl;
        try (intros H; by apply elem_of_nil in H).
      intros H. apply elem_of_cons in H as [->|H].
      * exists conv. split; [by left|exact E].
      * destruct (IH H) as (x & Hx & Hm). exists x. split; [by right|exact Hm].
    + simpl. intros H. by apply elem_of_nil in H.
    + simpl. intros H. by apply elem_of_nil in H.
Qed.

Lemma write_messages_skips_empty (ms : list NormalizedMessage) :
  forall st : store * nat,
    write_messages st ms = write_messages st (filter (fun x => content x <> []) ms).
Proof.
  induction ms as [|m ms IH]; intros st; [reflexivity|].
  destruct (decide (content m = [])) as [E|E].
  - rewrite filter_cons_False by auto. cbn [write_messages].
    unfold write_message. destruct st as [by_day count].
    rewrite bool_decide_eq_true_2 by exact E. apply IH.
  - rewrite filter_cons_True by auto. cbn [write_messages].
    destruct (write_message st m) as [st' [[]| |]]; [apply IH|reflexivity|reflexivity].
Qed.

(** C3, as the code has it: every conversation the parser yields holds the
    messages computed for one conversation object; when that object has a
    mapping, none of them has empty content.  For the flat form the
    normalizer's output is kept as it is, and the day writer is where a
    message with empty content is dropped: it writes what it would write
    for the messages with content alone. *)
Theorem yielded_branching_messages_nonempty (conversations : list pyval)
    (c : Conversation) :
  c ∈ (yield_conversations conversations).1 ->
  exists conv : pyval,
    conv ∈ conversations
    /\ conversation_messages conv = Ok (messages c)
    /\ (forall m : pyval,
          py_get conv (lit "mapping") VNone = Ok m -> truthy m = true ->
          Forall (fun x => content x <> []) (messages c))
    /\ forall st : store * nat,
         write_messages st (messages c)
         = write_messages st (filter (fun x => content x <> []) (messages c)).
Proof.
  intros Hc. destruct (yielded_from conversations c Hc) as (conv & Hin & Hm).
  exists conv. split; [exact Hin|]. split; [exact Hm|]. split.
  - intros m Hget Htruthy. unfold conversation_messages in Hm.
    rewrite Hget in Hm. cbn [mbind result_bind] in Hm. rewrite Htruthy in Hm.
    apply linearize_conversation_nonempty in Hm. exact Hm.
  - intros st. apply write_messages_skips_empty.
Qed.

End Reconciliation.

Lemma linearizer_reconciles_candidates_witness :
  exists out : list NormalizedMessage,
    @linearize_conversation Reference.utc (VDict Samples.branching_conversation) = Ok out
    /\ ([Samples.said "root" 1; Samples.said "cee" 3] = [] ->
        out = [Samples.said "root" 1; Samples.said "bee" 2; Samples.said "dee" 9])
    /\ ([Samples.said "root" 1; Samples.said "cee" 3] <> [] ->
        (length [Samples.said "root" 1; Samples.said "bee" 2; Samples.said "dee" 9]
         <= length [Samples.said "root" 1; Samples.said "cee" 3])%nat ->
        out = [Samples.said "root" 1; Samples.said "cee" 3])
    /\ ((length [Samples.said "root" 1; Samples.said "cee" 3]
         < length [Samples.said "root" 1; Samples.said "bee" 2; Samples.said "dee" 9])%nat ->
        out = [Samples.said "root" 1; Samples.said "bee" 2; Samples.said "dee" 9]).
Proof.
  apply (@linearizer_reconciles_candidates Reference.utc
           Samples.branching_conversation Samples.branching_mapping).
  - reflexivity.
  - discriminate.
  - vm_compute. reflexivity.
  - vm_compute. reflexivity.
Defined.

(** A flat conversation whose only message has no text is yielded with
    that message in it. *)
Lemma flat_conversation_keeps_empty_message :
  (@parse_openai_conversations Reference.utc (VList [Samples.flat_conversation])).1
  = [ {| title := VStr (lit "Conversation");
         messages := [ {| role := VStr (lit "assistant"); content := []; ts := 0 |} ] |} ]
  /\ exists (c : Conversation) (m : NormalizedMessage),
       c ∈ (@parse_openai_conversations Reference.utc (VList [Samples.flat_conversation])).1
       /\ m ∈ messages c /\ content m = [].
Proof.
  assert (E : (@parse_openai_conversations Reference.utc
                 (VList [Samples.flat_conversation])).1
              = [ {| title := VStr (lit "Conversation");
                     messages := [ {| role := VStr (lit "assistant");
                                      content := []; ts := 0 |} ] |} ])
    by (vm_compute; reflexivity).
  split; [exact E|]. rewrite E.
  eexists _, _. split; [apply list_elem_of_here|].
  split; [apply list_elem_of_here|reflexivity].
Qed.

Lemma yielded_branching_messages_nonempty_witness :
  exists conv : pyval,
    conv ∈ [VDict Samples.branching_conversation]
    /\ @conversation_messages Reference.utc conv
       = Ok [Samples.said "root" 1; Samples.said "bee" 2; Samples.said "dee" 9]
    /\ (forall m : pyval,
          py_get conv (lit "mapping") VNone = Ok m -> truthy m = true ->
          Forall (fun x => content x <> [])
            [Samples.said "root" 1; Samples.said "bee" 2; Samples.said "dee" 9])
    /\ forall st : store * nat,
         @write_messages Reference.utc st
           [Samples.said "root" 1; Samples.said "bee" 2; Samples.said "dee" 9]
         = @write_messages Reference.utc st
             (filter (fun x => content x <> [])
                [Samples.said "root" 1; Samples.said "bee" 2; Samples.said "dee" 9]).
Proof.
  apply (@yielded_branching_messages_nonempty Reference.utc
           [VDict Samples.branching_conversation]
           {| title := VStr (lit "Conversation");
              messages := [Samples.said "root" 1; Samples.said "bee" 2; Samples.said "dee" 9] |}).
  replace (@yield_conversations Reference.utc [VDict Samples.branching_conversation]).1
    with [ {| title := VStr (lit "Conversation");
              messages := [Samples.said "root" 1; Samples.said "bee" 2;
                           Samples.said "dee" 9] |} ]
    by (vm_compute; reflexivity).
  apply list_elem_of_here.
Defined.

(** ** Month build *)

Section MonthProperties.
Context `{lib : PyLib}.

Lemma sort_by_key_in_time_order (l : list pystr) : in_time_order (sort_by_key key_fn l).
Proof.
  unfold in_time_order, sort_by_key.
  eapply StronglySorted_weaken; [|apply isort_sorted].
  - intros a b H. apply Z.leb_le. exact H.
  - intros a b H. apply Z.leb_gt in H. apply Z.leb_le. lia.
  - intros a b c H1 H2. apply Z.leb_le in H1, H2. apply Z.leb_le. lia.
Qed.

Lemma day_sources_in_time_order (by_day : store) (f : pystr) :
  in_time_order (day_sources by_day f).
Proof. apply StronglySorted_filter, sort_by_key_in_time_order. Qed.

Lemma app_in_time_order (l1 l2 : list pystr) :
  in_time_order l1 -> in_time_order l2 ->
  (forall a b, a ∈ l1 -> b ∈ l2 -> key_fn a <= key_fn b) ->
  in_time_order (l1 ++ l2).
Proof.
  unfold in_time_order. intros H1 H2 Hcross.
  induction H1 as [|y l Hl IH Hy]; simpl; [exact H2|].
  constructor.
  - apply IH. intros a b Ha Hb. apply Hcross; [by right|exact Hb].
  - apply Forall_app. split; [exact Hy|].
    apply Forall_forall. intros b Hb. apply Hcross; [by left|exact Hb].
Qed.

Lemma concat_in_time_order (by_day : store) (files : list pystr) :
  (forall (i j : nat) (f1 f2 a b : pystr),
     files !! i = Some f1 -> files !! j = Some f2 -> (i < j)%nat ->
     a ∈ day_sources by_day f1 -> b ∈ day_sources by_day f2 -> key_fn a <= key_fn b) ->
  in_time_order (concat (map (day_sources by_day) files)).
Proof.
  induction files as [|f files IH]; intros Hcross; simpl; [constructor|].
  apply app_in_time_order.
  - apply day_sources_in_time_order.
  - apply IH. intros i j f1 f2 a b H1 H2 Hij. apply (Hcross (S i) (S j)); [exact H1|exact H2|lia].
  - intros a b Ha Hb.
    rewrite list_elem_of_In, in_concat in Hb. destruct Hb as (l & Hl & Hb).
    rewrite in_map_iff in Hl. destruct Hl as (f2 & <- & Hf2).
    rewrite <- list_elem_of_In, list_elem_of_lookup in Hf2. destruct Hf2 as (j & Hj).
    apply (Hcross 0%nat (S j) f f2); [reflexivity|exact Hj|lia|exact Ha|].
    rewrite list_elem_of_In. exact Hb.
Qed.

Lemma numbered_from_cons (k : nat) (x : pystr) (l : list pystr) :
  numbered_from k (x :: l) = month_line (S k) x :: numbered_from (S k) l.
Proof.
  unfold numbered_from. cbn [imap]. rewrite Nat.add_0_r. f_equal.
  apply imap_ext. intros j y _. cbn. f_equal. lia.
Qed.

Lemma numbered_from_app (k : nat) (l1 l2 : list pystr) :
  numbered_from k (l1 ++ l2) = numbered_from k l1 ++ numbered_from (k + length l1) l2.
Proof.
  revert k. induction l1 as [|x l1 IH]; intros k; cbn [app length].
  - rewrite Nat.add_0_r. reflexivity.
  - rewrite !numbered_from_cons, IH. cbn [app]. do 3 f_equal. lia.
Qed.

Lemma month_path_inj (k1 k2 : pystr) : month_path k1 = month_path k2 -> k1 = k2.
Proof. unfold month_path. apply app_inv_tail. Qed.

(** The inner loop: the lines with a tab are appended to the month file
    with consecutive numbers, the others are skipped, and no other file or
    counter is touched. *)
Lemma emit_lines_spec (k : pystr) (lines : list pystr) :
  forall (st : month_state) (c : list pystr) (n : nat),
    month_dir st !! month_path k = Some c ->
    month_counts st !! k = Some n ->
    let st' := foldl (emit_line k) st lines in
    let kept := filter (fun line => is_Some (split1 TAB line)) lines in
    month_dir st' !! month_path k = Some (c ++ numbered_from n kept)
    /\ month_counts st' !! k = Some (n + length kept)%nat
    /\ (forall p, p <> month_path k -> month_dir st' !! p = month_dir st !! p)
    /\ (forall k', k' <> k -> month_counts st' !! k' = month_counts st !! k').
Proof.
  induction lines as [|line lines IH]; intros st c n Hc Hn; cbn [foldl].
  - cbn zeta. rewrite filter_nil. cbn [length]. unfold numbered_from. cbn [imap].
    rewrite app_nil_r, Nat.add_0_r. auto.
  - destruct (split1 TAB line) as [[h rest]|] eqn:E.
    + specialize (IH (emit_line k st line) (c ++ [month_line (S n) line]) (S n)).
      destruct IH as (H1 & H2 & H3 & H4).
      * unfold emit_line. rewrite E, Hn. cbn [month_dir month_counts default from_option id].
        unfold append_line. rewrite lookup_insert_eq, Hc.
        unfold month_line. rewrite E. reflexivity.
      * unfold emit_line. rewrite E, Hn. cbn [month_dir month_counts default from_option id].
        apply lookup_insert_eq.
      * cbn zeta. rewrite filter_cons_True by (rewrite E; eauto).
        rewrite numbered_from_cons. cbn [length].
        split; [rewrite H1, <- app_assoc; reflexivity|].
        split; [rewrite H2; f_equal; lia|]. split.
        -- intros p Hp. rewrite (H3 p Hp). unfold emit_line. rewrite E.
           cbn [month_dir]. unfold append_line. apply lookup_insert_ne. congruence.
        -- intros k' Hk'. rewrite (H4 k' Hk'). unfold emit_line. rewrite E.
           cbn [month_counts]. apply lookup_insert_ne. congruence.
    + assert (Hst : emit_line k st line = st) by (unfold emit_line; rewrite E; reflexivity).
      rewrite Hst. cbn zeta.
      rewrite filter_cons_False by (rewrite E; intros [x Hx]; discriminate).
      apply IH; assumption.
Qed.

(** One day file: its lines follow what the month file holds, numbered on
    from the month's counter. *)
Lemma build_day_file_spec (by_day : store) (st : month_state) (f : pystr) :
  let k := month_key_of_file f in
  let st' := build_day_file by_day st f in
  month_dir st' !! month_path k
  = Some (default [] (month_dir st !! month_path k)
          ++ numbered_from (default O (month_counts st !! k)) (day_sources by_day f))
  /\ month_counts st' !! k
     = Some (default O (month_counts st !! k) + length (day_sources by_day f))%nat
  /\ (forall p, p <> month_path k -> month_dir st' !! p = month_dir st !! p)
  /\ (forall k', k' <> k -> month_counts st' !! k' = month_counts st !! k').
Proof.
  intros k st'. unfold st', build_day_file. fold k.
  match goal with |- context [foldl (emit_line k) ?s ?l] =>
    pose proof (emit_lines_spec k l s
                  (default [] (month_dir st !! month_path k))
                  (default O (month_counts st !! k))) as H
  end.
  destruct H as (H1 & H2 & H3 & H4).
  - cbn [month_dir]. unfold open_append. apply lookup_insert_eq.
  - cbn [month_counts]. destruct (month_counts st !! k) eqn:E; [exact E|].
    apply lookup_insert_eq.
  - split; [exact H1|]. split; [exact H2|]. split.
    + intros p Hp. rewrite (H3 p Hp). cbn [month_dir]. unfold open_append.
      apply lookup_insert_ne. congruence.
    + intros k' Hk'. rewrite (H4 k' Hk'). cbn [month_counts].
      destruct (month_counts st !! k); [reflexivity|]. apply lookup_insert_ne. congruence.
Qed.

(** The outer loop, started on an empty [by_month] directory: after the
    day files [files], the file of each month holds the numbered lines of
    its day files, and its counter their number. *)
Lemma build_month_fold (by_day : store) (files : list pystr) (mkey : pystr) :
  let st := foldl (build_day_file by_day)
                  {| month_dir := ∅; month_counts := ∅ |} files in
  match files_of_month files mkey with
  | [] => month_dir st !! month_path mkey = None /\ month_counts st !! mkey = None
  | _ => month_dir st !! month_path mkey
         = Some (numbered_from 0 (sources_of by_day files mkey))
         /\ month_counts st !! mkey = Some (length (sources_of by_day files mkey))
  end.
Proof.
  induction files as [|f files IH] using rev_ind.
  - cbn. split; apply lookup_empty.
  - cbn zeta in *. rewrite foldl_app. cbn [foldl].
    set (st := foldl (build_day_file by_day) _ files) in *.
    unfold sources_of, files_of_month in *. rewrite filter_app.
    destruct (build_day_file_spec by_day st f) as (H1 & H2 & H3 & H4).
    destruct (decide (month_key_of_file f = mkey)) as [Hk|Hk].
    + rewrite filter_cons_True, filter_nil by exact Hk. subst mkey.
      rewrite map_app, concat_app. cbn [map concat]. rewrite app_nil_r.
      assert (Hgoal : month_dir (build_day_file by_day st f) !! month_path (month_key_of_file f)
                      = Some (numbered_from 0
                                (concat (map (day_sources by_day)
                                   (filter (fun f0 => month_key_of_file f0 = month_key_of_file f)
                                      files))
                                 ++ day_sources by_day f))
                      /\ month_counts (build_day_file by_day st f) !! month_key_of_file f
                         = Some (length
                                   (concat (map (day_sources by_day)
                                      (filter (fun f0 => month_key_of_file f0
                                                         = month_key_of_file f) files))
                                    ++ day_sources by_day f))).
      { rewrite H1, H2, numbered_from_app, length_app.
        destruct (filter _ files) as [|g gs]; destruct IH as [E1 E2]; rewrite E1, E2;
          cbn [default from_option id]; auto. }
      destruct (filter _ files ++ [f]) eqn:E; [|exact Hgoal].
      apply app_eq_nil in E as [_ E]. discriminate.
    + rewrite filter_cons_False, filter_nil, app_nil_r by exact Hk.
      rewrite H3 by (intros E; apply month_path_inj in E; congruence).
      rewrite H4 by congruence. exact IH.
Qed.

Lemma sources_have_tab (by_day : store) (files : list pystr) (mkey source : pystr) :
  source ∈ sources_of by_day files mkey -> is_Some (split1 TAB source).
Proof.
  unfold sources_of. rewrite list_elem_of_In, in_concat. intros (l & Hl & Hs).
  rewrite in_map_iff in Hl. destruct Hl as (f & <- & _).
  rewrite <- list_elem_of_In in Hs. unfold day_sources in Hs.
  apply list_elem_of_filter in Hs as [Hs _]. exact Hs.
Qed.

(** C7, as the code has it: in a month file built into an empty directory
    the k-th line ends in the anchor number k, whatever day file it came
    from; the lines of one day file stand in non-decreasing order of their
    timestamps, day file after day file in the sorted order of the names;
    and the whole file is in non-decreasing order when no line of a day
    file is later than a line of a day file that follows it. *)
Theorem month_file_anchors_and_order (by_day : store) (mkey : pystr)
    (lines : list pystr) :
  build_month_files by_day ∅ !! month_path mkey = Some lines ->
  lines = imap (fun j source => month_line (S j) source) (month_sources by_day mkey)
  /\ (forall (j : nat) (source : pystr),
        month_sources by_day mkey !! j = Some source ->
        exists h rest : pystr,
          split1 TAB source = Some (h, rest)
          /\ lines !! j = Some (strip rest ++ lit " " ++ anchor (S j) ++ [NL]))
  /\ month_sources by_day mkey
     = concat (map (day_sources by_day) (month_day_files by_day mkey))
  /\ StronglySorted (fun f1 f2 => str_leb f1 f2 = true) (month_day_files by_day mkey)
  /\ Forall (fun f => in_time_order (day_sources by_day f)) (month_day_files by_day mkey)
  /\ ((forall (i j : nat) (f1 f2 a b : pystr),
         month_day_files by_day mkey !! i = Some f1 ->
         month_day_files by_day mkey !! j = Some f2 -> (i < j)%nat ->
         a ∈ day_sources by_day f1 -> b ∈ day_sources by_day f2 ->
         key_fn a <= key_fn b) ->
      in_time_order (month_sources by_day mkey)).
Proof.
  intros Hfile.
  assert (Hlines : lines = imap (fun j source => month_line (S j) source)
                                (month_sources by_day mkey)).
  { unfold build_month_files in Hfile.
    pose proof (build_month_fold by_day (listdir_sorted (lit ".raw") by_day) mkey) as H.
    cbn zeta in H. fold (month_sources by_day mkey) in H.
    destruct (files_of_month _ mkey); destruct H as [H _]; rewrite H in Hfile;
      [discriminate|].
    injection Hfile as <-. reflexivity. }
  split; [exact Hlines|]. split; [|split; [reflexivity|split; [|split]]].
  - intros j source Hj.
    destruct (sources_have_tab by_day (listdir_sorted (lit ".raw") by_day) mkey source)
      as [[h rest] Htab].
    { apply list_elem_of_lookup. exists j. exact Hj. }
    exists h, rest. split; [exact Htab|].
    rewrite Hlines, list_lookup_imap, Hj. cbn [fmap option_fmap option_map].
    unfold month_line. rewrite Htab. reflexivity.
  - apply StronglySorted_filter, listdir_sorted_ascending.
  - apply Forall_forall. intros f _. apply day_sources_in_time_order.
  - intros Hcross. apply concat_in_time_order. exact Hcross.
Qed.

End MonthProperties.

Lemma month_file_anchors_and_order_witness :
  [ lit "[] user: earlier ^msg-000001" ++ [NL]; lit "[] user: later ^msg-000002" ++ [NL] ]
  = imap (fun j source => month_line (S j) source)
         (@month_sources Reference.utc Samples.ordered_days (lit "2026-01"))
  /\ @month_sources Reference.utc Samples.ordered_days (lit "2026-01")
     = [Samples.day_line 1000 "earlier"; Samples.day_line 90000 "later"].
Proof.
  split; [|vm_compute; reflexivity].
  apply (@month_file_anchors_and_order Reference.utc Samples.ordered_days (lit "2026-01")).
  vm_compute. reflexivity.
Defined.

(** The day file with the earlier name holds the later timestamp: its line
    comes first in the month file, and the month file is not in time
    order. *)
Lemma swapped_days_break_time_order :
  @build_month_files Reference.utc Samples.swapped_days ∅ !! month_path (lit "2026-01")
  = Some [ lit "[] user: later ^msg-000001" ++ [NL];
           lit "[] user: earlier ^msg-000002" ++ [NL] ]
  /\ @month_sources Reference.utc Samples.swapped_days (lit "2026-01")
     = [Samples.day_line 90000 "later"; Samples.day_line 1000 "earlier"]
  /\ @key_fn Reference.utc (Samples.day_line 90000 "later") = 90000
  /\ @key_fn Reference.utc (Samples.day_line 1000 "earlier") = 1000
  /\ ~ @in_time_order Reference.utc
         (@month_sources Reference.utc Samples.swapped_days (lit "2026-01")).
Proof.
  assert (E : @month_sources Reference.utc Samples.swapped_days (lit "2026-01")
              = [Samples.day_line 90000 "later"; Samples.day_line 1000 "earlier"])
    by (vm_compute; reflexivity).
  split; [vm_compute; reflexivity|]. split; [exact E|].
  split; [vm_compute; reflexivity|]. split; [vm_compute; reflexivity|].
  rewrite E. unfold in_time_order. intros H.
  apply StronglySorted_inv in H as [_ H]. apply Forall_inv in H.
  vm_compute in H. apply H. reflexivity.
Qed.

(** * Further properties *)

(** ** Strings *)

Lemma lstrip_with_idem (p : N -> bool) (s : pystr) :
  lstrip_with p (lstrip_with p s) = lstrip_with p s.
Proof.
  induction s as [|c s IH]; [reflexivity|].
  cbn [lstrip_with]. destruct (p c) eqn:E; [exact IH|].
  cbn [lstrip_with]. rewrite E. reflexivity.
Qed.

Lemma lstrip_with_head (p : N -> bool) (c : N) (s : pystr) :
  p c = false -> lstrip_with p (c :: s) = c :: s.
Proof. intros E. cbn [lstrip_with]. rewrite E. reflexivity. Qed.

Lemma lstrip_with_snoc (p : N -> bool) (c : N) (s : pystr) :
  p c = false -> exists s', lstrip_with p (s ++ [c]) = s' ++ [c].
Proof.
  intros E. induction s as [|a s IH]; cbn [app lstrip_with].
  - rewrite E. exists []. reflexivity.
  - destruct (p a); [exact IH|]. exists (a :: s). reflexivity.
Qed.

Lemma lstrip_with_cases (p : N -> bool) (s : pystr) :
  lstrip_with p s = [] \/ exists c s', lstrip_with p s = c :: s' /\ p c = false.
Proof.
  induction s as [|a s IH]; [left; reflexivity|].
  cbn [lstrip_with]. destruct (p a) eqn:E; [exact IH|]. right. eauto.
Qed.

Lemma lstrip_with_app (p : N -> bool) (a b : pystr) :
  forallb p a = true -> lstrip_with p (a ++ b) = lstrip_with p b.
Proof.
  induction a as [|c a IH]; [reflexivity|].
  cbn [forallb app lstrip_with]. intros H. apply andb_true_iff in H as [Hc Ha].
  rewrite Hc. apply IH. exact Ha.
Qed.

(** [strip] is idempotent: its result has no white space at either end. *)
Lemma strip_trimmed (s : pystr) : trimmed (strip s).
Proof.
  unfold trimmed, strip, rstrip_with.
  set (a := lstrip_with is_space s).
  assert (Hl : lstrip_with is_space (rev (lstrip_with is_space (rev a)))
               = rev (lstrip_with is_space (rev a))).
  { destruct (lstrip_with_cases is_space s) as [E|(c & s' & E & Hc)]; fold a in E; rewrite E.
    - reflexivity.
    - cbn [rev]. destruct (lstrip_with_snoc is_space c (rev s') Hc) as [t Ht].
      rewrite Ht, rev_app_distr. cbn [rev app]. apply lstrip_with_head. exact Hc. }
  rewrite Hl, rev_involutive, lstrip_with_idem. reflexivity.
Qed.

Lemma startswith_app (p s : pystr) : startswith p (p ++ s) = true.
Proof.
  induction p as [|a p IH]; [reflexivity|].
  cbn [app startswith]. rewrite N.eqb_refl. exact IH.
Qed.

Lemma startswith_snoc_false (p s : pystr) (c : N) :
  startswith p s = false -> ~ In c p -> startswith p (s ++ [c]) = false.
Proof.
  revert s. induction p as [|a p IH]; intros s; [discriminate|].
  intros H Hc. destruct s as [|b s]; cbn [app startswith] in *.
  - apply andb_false_iff. left. apply N.eqb_neq. intros ->. apply Hc. left. reflexivity.
  - apply andb_false_iff in H as [H|H]; apply andb_false_iff; [left; exact H|right].
    apply IH; [exact H|]. intros Hin. apply Hc. right. exact Hin.
Qed.

(** ** Topic file names *)

Lemma sub_runs_in_class (s : pystr) :
  forall in_run : bool, Forall in_name_class (sub_runs in_run s).
Proof.
  induction s as [|c s IH]; intros in_run; cbn [sub_runs]; [constructor|].
  destruct (outside_name_class c) eqn:E.
  - destruct in_run; [apply IH|]. constructor; [reflexivity|apply IH].
  - constructor; [exact E|apply IH].
Qed.

Lemma sub_runs_fixed (s : pystr) :
  Forall in_name_class s -> forall in_run : bool, sub_runs in_run s = s.
Proof.
  induction 1 as [|c s Hc Hs IH]; intros in_run; cbn [sub_runs]; [reflexivity|].
  unfold in_name_class in Hc. rewrite Hc, IH. reflexivity.
Qed.

(** X1: the file name [flush] derives from a title holds only letters,
    digits, CJK ideographs, underscores and hyphens (so no path separator
    and no dot); a title that holds only such characters is its own file
    name, so deriving the name twice changes nothing; and a title that is
    not empty gives a name that is not empty. *)
Theorem topic_filename_safe (title : pystr) :
  Forall in_name_class (topic_filename title)
  /\ (Forall in_name_class title -> topic_filename title = title)
  /\ topic_filename (topic_filename title) = topic_filename title
  /\ (title <> [] -> topic_filename title <> []).
Proof.
  unfold topic_filename. split; [apply sub_runs_in_class|].
  split; [intros H; apply sub_runs_fixed; exact H|].
  split; [apply sub_runs_fixed, sub_runs_in_class|].
  destruct title as [|c title]; [congruence|]. intros _.
  cbn [sub_runs]. destruct (outside_name_class c); discriminate.
Qed.

(** ** Message normalizer *)

Section NormalizerInvariants.
Context `{lib : PyLib}.

(** X2: a message the normalizer returns has a role that is not empty (the
    role found in the record, or "assistant") and a content without white
    space at either end; and only an object is normalized at all. *)
Theorem normalize_message_invariants (msg : pyval) (m : NormalizedMessage) :
  normalize_message msg = Ok m ->
  truthy (role m) = true
  /\ trimmed (content m)
  /\ exists d : pydict, msg = VDict d.
Proof.
  unfold normalize_message. destruct msg as [| | | | | |d]; try discriminate.
  destruct (py_get _ (lit "role") VNone) as [r| |]; cbn [mbind result_bind]; try discriminate.
  destruct (raw_timestamp (VDict d)) as [t| |]; cbn [mbind result_bind]; try discriminate.
  destruct (strip_content (raw_content d)) as [c| |] eqn:Hc; cbn [mbind result_bind];
    try discriminate.
  destruct (normalize_timestamp t) as [z| |]; cbn [mbind result_bind]; try discriminate.
  intros [= <-]. cbn [role content]. split; [|split; [|eauto]].
  - unfold py_or at 1. destruct (truthy (py_or r _)) eqn:E; [exact E|reflexivity].
  - unfold strip_content in Hc. destruct (py_or _ _); try discriminate.
    injection Hc as <-. apply strip_trimmed.
Qed.

(** X3: every conversation the parser yields has at least one message and a
    title that is not empty (the one of the conversation object, or
    "Conversation"). *)
Theorem yielded_conversations_have_messages (obj : pyval) (c : Conversation) :
  c ∈ (parse_openai_conversations obj).1 ->
  messages c <> [] /\ truthy (title c) = true.
Proof.
  unfold parse_openai_conversations.
  generalize (match obj with
              | VList l => l
              | VDict d =>
                  match dict_get d (lit "conversations") VNone with
                  | VList l => l
                  | _ => if truthy (dict_get d (lit "mapping") VNone) then [obj] else []
                  end
              | _ => []
              end).
  intros conversations. induction conversations as [|conv rest IH]; cbn [yield_conversations].
  - intros H. by apply elem_of_nil in H.
  - destruct (conversation_messages conv) as [[|m ms]| |]; [exact IH| | |];
      try (intros H; by apply elem_of_nil in H).
    destruct (py_get conv (lit "title") VNone) as [t| |];
      try (intros H; by apply elem_of_nil in H).
    unfold gen_cons. cbn [fst]. intros H. apply elem_of_cons in H as [->|H]; [|exact (IH H)].
    cbn [messages title]. split; [discriminate|].
    unfold py_or. destruct (truthy t) eqn:E; [exact E|reflexivity].
Qed.

End NormalizerInvariants.

(** ** Topic segmenter and preview *)

Lemma sorted_set_increasing (l : list nat) : StronglySorted lt (sorted_set l).
Proof.
  unfold sorted_set.
  assert (Hnd : NoDup (isort Nat.leb (remove_dups l))).
  { rewrite isort_perm. apply NoDup_remove_dups. }
  assert (Hs : StronglySorted (fun a b => Nat.leb a b = true) (isort Nat.leb (remove_dups l))).
  { apply isort_sorted.
    - intros a b H. apply Nat.leb_gt in H. apply Nat.leb_le. lia.
    - intros a b c H1 H2. apply Nat.leb_le in H1, H2. apply Nat.leb_le. lia. }
  revert Hnd Hs. generalize (isort Nat.leb (remove_dups l)). clear l.
  intros l Hnd Hs. induction Hs as [|x l Hl IH Hx]; [constructor|].
  apply NoDup_cons in Hnd as [Hnotin Hnd].
  constructor; [apply IH; exact Hnd|].
  rewrite Forall_forall in Hx. apply Forall_forall. intros y Hy.
  specialize (Hx y Hy). apply Nat.leb_le in Hx.
  assert (x <> y) by (intros ->; contradiction). lia.
Qed.

Section SegmenterInvariants.
Context `{lib : PyLib}.

(** X4: the boundaries come out strictly increasing, the first of them is
    index 0, and every other one is the index of a line. *)
Theorem boundaries_sorted_in_range (lines : list pystr) (gap : Z) (triggers : list pystr) :
  StronglySorted lt (detect_topic_boundaries lines gap triggers)
  /\ head (detect_topic_boundaries lines gap triggers) = Some 0%nat
  /\ Forall (fun i => i = 0%nat \/ (i < length lines)%nat)
       (detect_topic_boundaries lines gap triggers).
Proof.
  assert (Hs : StronglySorted lt (detect_topic_boundaries lines gap triggers))
    by apply sorted_set_increasing.
  split; [exact Hs|]. split.
  - pose proof (boundary_at_zero lines gap triggers) as H0.
    destruct (detect_topic_boundaries lines gap triggers) as [|x l]; [by apply elem_of_nil in H0|].
    cbn [head]. apply elem_of_cons in H0 as [<-|H0]; [reflexivity|].
    apply StronglySorted_inv in Hs as [_ Hs]. rewrite Forall_forall in Hs.
    specialize (Hs 0%nat H0). lia.
  - apply Forall_forall. intros i Hi. unfold detect_topic_boundaries in Hi.
    rewrite elem_of_sorted_set, elem_of_app, list_elem_of_singleton, boundaries_loop_spec in Hi.
    destruct Hi as [[Hi|(j & l & -> & Hl & _)]|Hi]; [by apply elem_of_nil in Hi| |auto].
    right. apply lookup_lt_Some in Hl. exact Hl.
Qed.

End SegmenterInvariants.

Lemma newline_not_in_topic_start : ~ In NL topic_start.
Proof. vm_compute. intuition discriminate. Qed.

(** X5: the preview holds every line of the month file, in order and with
    its newline, and nothing else but marker lines: when no line of the
    month file itself starts with the marker, dropping the marker lines from
    the preview gives the month file back, and there is one marker line for
    each line whose index is a boundary. *)
Theorem preview_keeps_every_line (markers : list nat) (lines : list pystr) :
  Forall (fun l => ~ is_marker l) lines ->
  forall i k : nat,
    filter (fun l => ~ is_marker l) (preview_lines markers i k lines)
    = map (fun l => l ++ [NL]) lines
    /\ length (filter (fun l => is_marker l) (preview_lines markers i k lines))
       = length (filter (fun j => j ∈ markers) (seq i (length lines))).
Proof.
  induction 1 as [|line lines Hline Hlines IH]; intros i k; [split; reflexivity|].
  assert (Hnl : ~ is_marker (line ++ [NL])).
  { rewrite startswith_snoc_false; [discriminate| |apply newline_not_in_topic_start].
    destruct (startswith topic_start line); [contradiction Hline; reflexivity|reflexivity]. }
  cbn [preview_lines length seq map].
  case_bool_decide as Hi.
  - rewrite (filter_cons_False _ (topic_start ++ _)) by (rewrite startswith_app; auto).
    rewrite (filter_cons_True (fun l => is_marker l) (topic_start ++ _))
      by (apply startswith_app).
    rewrite (filter_cons_True _ (line ++ [NL])) by exact Hnl.
    rewrite (filter_cons_False (fun l => is_marker l) (line ++ [NL])) by exact Hnl.
    rewrite (filter_cons_True _ i) by exact Hi.
    destruct (IH (S i) (S k)) as [E1 E2]. rewrite E1. cbn [length]. rewrite E2. auto.
  - rewrite (filter_cons_True _ (line ++ [NL])) by exact Hnl.
    rewrite (filter_cons_False (fun l => is_marker l) (line ++ [NL])) by exact Hnl.
    rewrite (filter_cons_False _ i) by exact Hi.
    destruct (IH (S i) k) as [E1 E2]. rewrite E1, E2. auto.
Qed.

(** ** Topic splitter *)




(** ** Month build *)

Lemma insert_sorted_stable {A : Type} (key : A -> Z) (k : Z) (x : A) (l : list A) :
  filter (fun y => key y = k) (insert_sorted (fun a b => key a <=? key b) x l)
  = filter (fun y => key y = k) (x :: l).
Proof.
  induction l as [|y l IH]; cbn [insert_sorted]; [reflexivity|].
  destruct (key x <=? key y) eqn:E; [reflexivity|]. apply Z.leb_gt in E.
  destruct (decide (key y = k)) as [Hy|Hy].
  - rewrite (filter_cons_True _ y) by exact Hy. rewrite IH.
    rewrite (filter_cons_False _ x) by lia. rewrite (filter_cons_False _ x) by lia.
    rewrite (filter_cons_True _ y) by exact Hy. reflexivity.
  - rewrite (filter_cons_False _ y) by exact Hy. rewrite IH.
    destruct (decide (key x = k)) as [Hx|Hx].
    + rewrite !(filter_cons_True _ x) by exact Hx.
      rewrite (filter_cons_False _ y) by exact Hy. reflexivity.
    + rewrite !(filter_cons_False _ x) by exact Hx.
      rewrite (filter_cons_False _ y) by exact Hy. reflexivity.
Qed.

Section MonthInvariants.
Context `{lib : PyLib}.

Lemma sort_by_key_fixed (lines : list pystr) :
  in_time_order lines -> sort_by_key key_fn lines = lines.
Proof.
  unfold in_time_order, sort_by_key, isort.
  induction 1 as [|x l Hl IH Hx]; cbn [foldr]; [reflexivity|].
  rewrite IH. destruct l as [|y l]; [reflexivity|].
  cbn [insert_sorted]. apply Forall_inv in Hx. apply Z.leb_le in Hx. rewrite Hx. reflexivity.
Qed.

(** X8: the sort of a day file's lines is a stable sort by the leading
    timestamp: the sorted lines are the lines of the file, in non-decreasing
    order of [key_fn], the lines of one timestamp in the order the file has
    them; a file that is in order already is left as it is. *)
Theorem day_sort_is_stable (lines : list pystr) :
  sort_by_key key_fn lines ≡ₚ lines
  /\ in_time_order (sort_by_key key_fn lines)
  /\ (forall t : Z,
        filter (fun l => key_fn l = t) (sort_by_key key_fn lines)
        = filter (fun l => key_fn l = t) lines)
  /\ (in_time_order lines -> sort_by_key key_fn lines = lines).
Proof.
  split; [apply isort_perm|]. split; [apply sort_by_key_in_time_order|].
  split; [|apply sort_by_key_fixed].
  intros t. unfold sort_by_key, isort.
  induction lines as [|x l IH]; cbn [foldr]; [reflexivity|].
  rewrite insert_sorted_stable.
  destruct (decide (key_fn x = t)) as [Hx|Hx].
  - rewrite !(filter_cons_True _ x) by exact Hx. rewrite IH. reflexivity.
  - rewrite !(filter_cons_False _ x) by exact Hx. exact IH.
Qed.

(** The outer loop started on any [by_month] directory: the lines of a
    month follow what its file held before, numbered from 1. *)
Lemma build_month_fold_from (by_day by_month : store) (files : list pystr) (mkey : pystr) :
  let st := foldl (build_day_file by_day)
                  {| month_dir := by_month; month_counts := ∅ |} files in
  match files_of_month files mkey with
  | [] => month_dir st !! month_path mkey = by_month !! month_path mkey
          /\ month_counts st !! mkey = None
  | _ => month_dir st !! month_path mkey
         = Some (default [] (by_month !! month_path mkey)
                 ++ numbered_from 0 (sources_of by_day files mkey))
         /\ month_counts st !! mkey = Some (length (sources_of by_day files mkey))
  end.
Proof.
  induction files as [|f files IH] using rev_ind.
  - cbn. split; [reflexivity|apply lookup_empty].
  - cbn zeta in *. rewrite foldl_app. cbn [foldl].
    set (st := foldl (build_day_file by_day) _ files) in *.
    unfold sources_of, files_of_month in *. rewrite filter_app.
    destruct (build_day_file_spec by_day st f) as (H1 & H2 & H3 & H4).
    destruct (decide (month_key_of_file f = mkey)) as [Hk|Hk].
    + rewrite filter_cons_True, filter_nil by exact Hk. subst mkey.
      rewrite map_app, concat_app. cbn [map concat]. rewrite app_nil_r.
      assert (Hgoal : month_dir (build_day_file by_day st f) !! month_path (month_key_of_file f)
                      = Some (default [] (by_month !! month_path (month_key_of_file f))
                              ++ numbered_from 0
                                   (concat (map (day_sources by_day)
                                      (filter (fun f0 => month_key_of_file f0
                                                         = month_key_of_file f) files))
                                    ++ day_sources by_day f))
                      /\ month_counts (build_day_file by_day st f) !! month_key_of_file f
                         = Some (length
                                   (concat (map (day_sources by_day)
                                      (filter (fun f0 => month_key_of_file f0
                                                         = month_key_of_file f) files))
                                    ++ day_sources by_day f))).
      { rewrite H1, H2, numbered_from_app, length_app.
        destruct (filter _ files) as [|g gs]; destruct IH as [E1 E2]; rewrite E1, E2;
          cbn [default from_option id map concat app length numbered_from imap];
          rewrite ?app_nil_r, ?app_assoc; auto. }
      destruct (filter _ files ++ [f]) eqn:E; [|exact Hgoal].
      apply app_eq_nil in E as [_ E]. discriminate.
    + rewrite filter_cons_False, filter_nil, app_nil_r by exact Hk.
      rewrite H3 by (intros E; apply month_path_inj in E; congruence).
      rewrite H4 by congruence. exact IH.
Qed.

Lemma build_month_other_paths (by_day by_month : store) (files : list pystr) (p : pystr) :
  Forall (fun f => p <> month_path (month_key_of_file f)) files ->
  month_dir (foldl (build_day_file by_day)
               {| month_dir := by_month; month_counts := ∅ |} files) !! p
  = by_month !! p.
Proof.
  induction files as [|f files IH] using rev_ind; intros H; [reflexivity|].
  apply Forall_app in H as [Hfiles Hf]. apply Forall_inv in Hf.
  rewrite foldl_app. cbn [foldl].
  destruct (build_day_file_spec by_day (foldl (build_day_file by_day)
              {| month_dir := by_month; month_counts := ∅ |} files) f) as (_ & _ & H3 & _).
  rewrite (H3 p Hf). apply IH. exact Hfiles.
Qed.

(** X9: the month build appends.  On any [by_month] directory, the file of
    a month that has day files holds what it held before, followed by the
    month's lines with anchors that start at 1 again; every other file is
    as it was.  So a second run over the same day files writes every line a
    second time, with the same anchors. *)
Theorem month_build_appends (by_day by_month : store) (mkey : pystr) :
  (month_day_files by_day mkey = [] ->
   build_month_files by_day by_month !! month_path mkey = by_month !! month_path mkey)
  /\ (month_day_files by_day mkey <> [] ->
      build_month_files by_day by_month !! month_path mkey
      = Some (default [] (by_month !! month_path mkey)
              ++ numbered_from 0 (month_sources by_day mkey))
      /\ build_month_files by_day (build_month_files by_day ∅) !! month_path mkey
         = Some (numbered_from 0 (month_sources by_day mkey)
                 ++ numbered_from 0 (month_sources by_day mkey)))
  /\ (forall p : pystr,
        Forall (fun f => p <> month_path (month_key_of_file f))
               (listdir_sorted (lit ".raw") by_day) ->
        build_month_files by_day by_month !! p = by_month !! p).
Proof.
  assert (H : forall dir : store,
            match month_day_files by_day mkey with
            | [] => build_month_files by_day dir !! month_path mkey = dir !! month_path mkey
            | _ => build_month_files by_day dir !! month_path mkey
                   = Some (default [] (dir !! month_path mkey)
                           ++ numbered_from 0 (month_sources by_day mkey))
            end).
  { intros dir. unfold build_month_files, month_day_files, month_sources.
    pose proof (build_month_fold_from by_day dir (listdir_sorted (lit ".raw") by_day) mkey) as H.
    cbn zeta in H. destruct (files_of_month _ mkey); destruct H as [H _]; exact H. }
  split; [|split].
  - intros E. specialize (H by_month). rewrite E in H. exact H.
  - intros Hne. pose proof (H by_month) as H1. pose proof (H ∅) as H0.
    pose proof (H (build_month_files by_day ∅)) as H2.
    destruct (month_day_files by_day mkey); [contradiction|].
    split; [exact H1|]. rewrite H2, H0, lookup_empty. reflexivity.
  - intros p Hp. apply build_month_other_paths. exact Hp.
Qed.

Lemma concat_map_Permutation {A B : Type} (f g : A -> list B) (l : list A) :
  (forall x, f x ≡ₚ g x) -> concat (map f l) ≡ₚ concat (map g l).
Proof.
  intros H. induction l as [|x l IH]; cbn [map concat]; [reflexivity|].
  rewrite (H x), IH. reflexivity.
Qed.

(** X10: the month build neither drops nor invents a line with a tab: the
    day lines behind a month file are, up to their order, the lines with a
    tab of the month's day files, and the month file built into an empty
    directory has one line for each of them. *)
Theorem month_build_keeps_tabbed_lines (by_day : store) (mkey : pystr) (lines : list pystr) :
  build_month_files by_day ∅ !! month_path mkey = Some lines ->
  month_sources by_day mkey
  ≡ₚ concat (map (fun f => filter has_tab (default [] (by_day !! f)))
                 (month_day_files by_day mkey))
  /\ length lines
     = length (concat (map (fun f => filter has_tab (default [] (by_day !! f)))
                           (month_day_files by_day mkey))).
Proof.
  intros Hfile.
  assert (Hp : month_sources by_day mkey
               ≡ₚ concat (map (fun f => filter has_tab (default [] (by_day !! f)))
                              (month_day_files by_day mkey))).
  { unfold month_sources, sources_of, month_day_files.
    apply concat_map_Permutation. intros f. unfold day_sources, has_tab.
    apply filter_Permutation. apply isort_perm. }
  split; [exact Hp|]. rewrite <- Hp.
  unfold build_month_files in Hfile.
  pose proof (build_month_fold by_day (listdir_sorted (lit ".raw") by_day) mkey) as H.
  cbn zeta in H. fold (month_sources by_day mkey) in H.
  destruct (files_of_month _ mkey); destruct H as [H _]; rewrite H in Hfile; [discriminate|].
  injection Hfile as <-. unfold numbered_from. apply length_imap.
Qed.

End MonthInvariants.

(** ** Day writer *)

Section DayWriter.
Context `{lib : PyLib}.

Lemma write_message_appends (st st' : store * nat) (m : NormalizedMessage) (r : result unit) :
  write_message st m = (st', r) ->
  (forall p old, st.1 !! p = Some old -> exists more, st'.1 !! p = Some (old ++ more))
  /\ (r = Ok tt ->
      st'.2 = (st.2 + length (filter (fun x => content x <> []) [m]))%nat).
Proof.
  unfold write_message. destruct st as [by_day count].
  assert (Hsame : forall p old, by_day !! p = Some old ->
                    exists more, by_day !! p = Some (old ++ more)).
  { intros p old H. exists []. rewrite app_nil_r. exact H. }
  case_bool_decide as Hc.
  { intros [= <- <-]. split; [exact Hsame|]. intros _.
    rewrite filter_cons_False, filter_nil by auto. cbn. lia. }
  assert (Hopen : forall path p old, by_day !! p = Some old ->
                    exists more, open_append path by_day !! p = Some (old ++ more)).
  { intros path p old H. exists []. rewrite app_nil_r. unfold open_append.
    destruct (decide (path = p)) as [->|Hne].
    - rewrite lookup_insert_eq, H. reflexivity.
    - rewrite lookup_insert_ne by exact Hne. exact H. }
  destruct (day_key (ts m)) as [dk| |]; try (intros [= <- <-]; split; [exact Hsame|discriminate]).
  destruct (to_iso (ts m)) as [iso| |];
    try (intros [= <- <-]; split; [apply Hopen|discriminate]).
  intros [= <- <-]. split.
  - intros p old H. cbn [fst]. unfold append_line.
    destruct (Hopen (dk ++ lit ".raw") p old H) as [more Hmore].
    destruct (decide (dk ++ lit ".raw" = p)) as [<-|Hne].
    + rewrite lookup_insert_eq, Hmore. cbn [default from_option id].
      exists (more ++ [str_of_Z (ts m) ++ [TAB] ++ lit "[" ++ iso ++ lit "] "
                       ++ py_str (role m) ++ lit ": "
                       ++ replace [NL] (lit " ") (content m) ++ [NL]]).
      rewrite app_assoc. reflexivity.
    + rewrite lookup_insert_ne by exact Hne. eauto.
  - intros _. rewrite filter_cons_True, filter_nil by exact Hc. cbn. lia.
Qed.

Lemma write_messages_appends (ms : list NormalizedMessage) :
  forall (st st' : store * nat) (r : result unit),
    write_messages st ms = (st', r) ->
    (forall p old, st.1 !! p = Some old -> exists more, st'.1 !! p = Some (old ++ more))
    /\ (r = Ok tt ->
        st'.2 = (st.2 + length (filter (fun x => content x <> []) ms))%nat).
Proof.
  induction ms as [|m ms IH]; intros st st' r; cbn [write_messages].
  - intros [= <- <-]. split.
    + intros p old H. exists []. rewrite app_nil_r. exact H.
    + intros _. rewrite filter_nil. cbn. lia.
  - destruct (write_message st m) as [st1 r1] eqn:E1.
    apply write_message_appends in E1 as [Ha1 Hc1].
    destruct r1 as [[]| |].
    + intros E2. apply IH in E2 as [Ha2 Hc2]. split.
      * intros p old H. destruct (Ha1 p old H) as [more1 H1].
        destruct (Ha2 p _ H1) as [more2 H2]. exists (more1 ++ more2).
        rewrite app_assoc. exact H2.
      * intros Hr. rewrite (Hc2 Hr), (Hc1 eq_refl).
        change (m :: ms) with ([m] ++ ms). rewrite filter_app, length_app. lia.
    + intros [= <- <-]. split; [exact Ha1|discriminate].
    + intros [= <- <-]. split; [exact Ha1|discriminate].
Qed.

(** X11: the day writer only appends: a day file that exists keeps its
    lines, in place, whatever else happens (also when the run raises half
    way); and the count it returns is the number of messages with content
    among the conversations it was given. *)
Theorem day_writer_appends_and_counts (conversations : gen Conversation)
    (by_day by_day' : store) (r : result nat) :
  write_by_day_raw conversations by_day = (by_day', r) ->
  (forall p old, by_day !! p = Some old -> exists more, by_day' !! p = Some (old ++ more))
  /\ (forall count : nat,
        r = Ok count ->
        count = length (filter (fun m => content m <> [])
                               (concat (map messages conversations.1)))).
Proof.
  unfold write_by_day_raw.
  destruct (write_messages (by_day, O) (concat (map messages conversations.1)))
    as [[dir n] r1] eqn:E.
  apply write_messages_appends in E as [Ha Hc]. cbn [fst snd] in Ha, Hc.
  destruct r1 as [[]| |]; intros [= <- <-]; (split; [exact Ha|]).
  - intros count. destruct (conversations.2); cbn [mbind result_bind]; try discriminate.
    intros [= <-]. rewrite (Hc eq_refl). reflexivity.
  - discriminate.
  - discriminate.
Qed.

End DayWriter.

(** ** Streaming value source *)

Lemma find_char_app_l (c : N) (a b : pystr) (i : nat) :
  find_char c a = Some i -> find_char c (a ++ b) = Some i.
Proof.
  revert i. induction a as [|x a IH]; intros i; cbn [app find_char]; [discriminate|].
  destruct (x =? c)%N; [auto|].
  destruct (find_char c a) as [j|]; [|discriminate].
  rewrite (IH j eq_refl). auto.
Qed.

Lemma find_char_here (c : N) (a b : pystr) :
  find_char c a = None -> find_char c (a ++ c :: b) = Some (length a).
Proof.
  induction a as [|x a IH]; cbn [app find_char length].
  - rewrite N.eqb_refl. reflexivity.
  - destruct (x =? c)%N; [discriminate|].
    destruct (find_char c a); [discriminate|]. intros _. rewrite (IH eq_refl). reflexivity.
Qed.

Lemma find_char_split (c : N) (s : pystr) (i : nat) :
  find_char c s = Some i ->
  exists a b, s = a ++ c :: b /\ length a = i /\ find_char c a = None.
Proof.
  revert i. induction s as [|x s IH]; intros i; cbn [find_char]; [discriminate|].
  destruct (x =? c)%N eqn:E.
  - intros [= <-]. apply N.eqb_eq in E as ->. exists [], s. auto.
  - destruct (find_char c s) as [j|]; [|discriminate]. intros [= <-].
    destruct (IH j eq_refl) as (a & b & -> & Hl & Ha).
    exists (x :: a), b. cbn [app length find_char]. rewrite E, Ha, Hl. auto.
Qed.

Lemma find_array_start_text (f : list pystr) :
  forall acc pre post : pystr,
    Forall (fun chunk => chunk <> []) f ->
    find_char 91%N acc = None ->
    find_char 91%N pre = None ->
    acc ++ concat f = pre ++ 91%N :: post ->
    exists buf f', find_array_start f acc = Some (buf, f') /\ buf ++ concat f' = post.
Proof.
  induction f as [|chunk f IH]; intros acc pre post Hne Hacc Hpre Htext.
  - cbn [concat] in Htext. rewrite app_nil_r in Htext.
    rewrite Htext, (find_char_here _ _ _ Hpre) in Hacc. discriminate.
  - apply Forall_cons in Hne as [Hchunk Hne].
    cbn [find_array_start concat] in *.
    rewrite bool_decide_eq_false_2 by exact Hchunk.
    rewrite app_assoc in Htext.
    destruct (find_char 91%N (acc ++ chunk)) as [idx|] eqn:E.
    + destruct (find_char_split _ _ _ E) as (a & b & Hab & Hlen & Ha).
      exists (drop (S idx) (acc ++ chunk)), f. split; [reflexivity|].
      rewrite Hab in Htext |- *. rewrite <- app_assoc in Htext. cbn [app] in Htext.
      assert (Hpos : Some (length a) = Some (length pre)).
      { rewrite <- (find_char_here 91%N a (b ++ concat f) Ha), Htext.
        apply find_char_here. exact Hpre. }
      injection Hpos as Hpos.
      apply app_inj_1 in Htext as [-> Htext]; [|exact Hpos].
      injection Htext as <-. subst idx.
      change (S (length pre)) with (1 + length pre)%nat.
      rewrite Nat.add_comm, <- drop_drop, drop_app_length. reflexivity.
    + apply (IH (acc ++ chunk) pre post); assumption.
Qed.

Section StreamInvariants.
Context `{lib : PyLib}.

(** X12: the search for the array start does not depend on how the stream
    is cut into chunks: everything up to the first opening bracket of the
    text is thrown away (also an object wrapped around the array), and the
    values are read from the text after it.  Between values, any run of
    blanks and commas is passed over. *)
Theorem array_start_ignores_chunking (f : list pystr) (pre post : pystr) :
  Forall (fun chunk => chunk <> []) f ->
  concat f = pre ++ 91%N :: post ->
  find_char 91%N pre = None ->
  exists (buf : pystr) (f' : list pystr),
    find_array_start f [] = Some (buf, f')
    /\ buf ++ concat f' = post
    /\ (forall fuel : nat, iter_json_array fuel f = iter_values fuel f' buf)
    /\ (forall (fuel : nat) (seps : pystr),
          forallb is_separator seps = true ->
          iter_values fuel f' (seps ++ buf) = iter_values fuel f' buf).
Proof.
  intros Hne Htext Hpre.
  destruct (find_array_start_text f [] pre post Hne eq_refl Hpre Htext) as (buf & f' & E & Hpost).
  exists buf, f'. split; [exact E|]. split; [exact Hpost|]. split.
  - intros fuel. unfold iter_json_array. rewrite E. reflexivity.
  - intros [|fuel] seps Hseps; [reflexivity|].
    cbn [iter_values]. rewrite (lstrip_with_app _ _ _ Hseps). reflexivity.
Qed.

End StreamInvariants.

(** ** Conversation linearizer *)

Lemma NoDup_keys_length (mapping : pydict) (ids : list pystr) :
  NoDup ids -> (forall x, x ∈ ids -> x ∈ keyset mapping) ->
  (length ids <= length mapping)%nat.
Proof.
  intros Hnd Hin.
  pose proof (size_keyset mapping) as Hk.
  pose proof (size_list_to_set (C:=gset pystr) ids Hnd) as Hs.
  pose proof (subseteq_size (list_to_set ids : gset pystr) (keyset mapping)) as Hsub.
  specialize (Hsub ltac:(intros x Hx; apply elem_of_list_to_set in Hx; auto)). lia.
Qed.

Lemma collect_path_ids (conv : pyval) (mapping : pydict) (ids : list pystr) :
  collect_path_from_current_node conv mapping = Ok ids ->
  NoDup ids /\ (forall x, x ∈ ids -> x ∈ keyset mapping).
Proof.
  unfold collect_path_from_current_node.
  destruct (py_get conv (lit "current_node") VNone) as [node_id| |]; try discriminate.
  cbn [mbind result_bind].
  assert (Hnil : Ok [] = Ok ids -> NoDup ids /\ (forall x, x ∈ ids -> x ∈ keyset mapping)).
  { intros [= <-]. split; [constructor|]. intros x Hx. by apply elem_of_nil in Hx. }
  destruct (truthy node_id); cbn [negb]; [|exact Hnil].
  destruct (dict_contains mapping node_id) as [[]| |]; cbn [mbind result_bind negb];
    try discriminate; [|exact Hnil].
  destruct (collect_path_loop _ _ _ _ _) as [walk| |] eqn:Hloop; try discriminate.
  intros [= <-].
  apply collect_path_loop_walk in Hloop as (more & p & -> & Hnd & Hin & _).
  cbn [app]. rewrite rev_is_reverse. split.
  - rewrite reverse_Permutation. exact Hnd.
  - intros x Hx. rewrite elem_of_reverse in Hx. apply Hin. exact Hx.
Qed.

Section LatestBranch.
Context `{lib : PyLib}.

Lemma pick_child_next (mapping : pydict) (st st' : option pystr * Z * gmap pystr Z)
    (child_id : pyval) :
  pick_child mapping st child_id = Ok st' ->
  st'.1.1 = st.1.1 \/ exists c, child_id = VStr c /\ st'.1.1 = Some c.
Proof.
  unfold pick_child. destruct st as [[next_id best] cache].
  destruct (dict_contains mapping child_id) as [[]| |]; cbn [mbind result_bind negb];
    try discriminate; [|intros [= <-]; auto].
  destruct (get_latest_subtree_timestamp _ _ _ _ _) as [[t c]| |]; cbn [mbind result_bind];
    try discriminate.
  destruct child_id; try (intros [= <-]; auto).
  destruct (_ || _); intros [= <-]; cbn [fst]; eauto.
Qed.

Lemma pick_children_next (mapping : pydict) (children : list pyval) :
  forall st st' : option pystr * Z * gmap pystr Z,
    foldM (pick_child mapping) st children = Ok st' ->
    st'.1.1 = st.1.1 \/ exists c, VStr c ∈ children /\ st'.1.1 = Some c.
Proof.
  induction children as [|child children IH]; intros st st'; cbn [foldM].
  - intros [= <-]. auto.
  - destruct (pick_child mapping st child) as [st1| |] eqn:E; cbn [mbind result_bind];
      try discriminate.
    intros H. apply IH in H as [H|(c & Hc & H)].
    + apply pick_child_next in E as [E|(c & -> & E)].
      * left. congruence.
      * right. exists c. split; [by left|congruence].
    + right. exists c. split; [by right|exact H].
Qed.

Lemma latest_branch_loop_walk (mapping : pydict) (fuel : nat) :
  forall (node_id : pystr) (visited : gset pystr) (cache : gmap pystr Z)
         (ids out : list pystr),
    latest_branch_loop fuel mapping node_id visited cache ids = Ok out ->
    exists more : list pystr,
      out = ids ++ more
      /\ NoDup more
      /\ (forall x, x ∈ more -> x ∈ keyset mapping /\ x ∉ visited)
      /\ child_chain mapping more
      /\ (more = [] \/ head more = Some node_id).
Proof.
  induction fuel as [|fuel IH]; intros node_id visited cache ids out; [discriminate|].
  cbn [latest_branch_loop].
  assert (Hnone : Ok ids = Ok out ->
            exists more, out = ids ++ more /\ NoDup more
              /\ (forall x, x ∈ more -> x ∈ keyset mapping /\ x ∉ visited)
              /\ child_chain mapping more /\ (more = [] \/ head more = Some node_id)).
  { intros [= <-]. exists []. rewrite app_nil_r. split; [reflexivity|].
    split; [constructor|]. split; [|split; [exact I|auto]].
    intros x Hx. by apply elem_of_nil in Hx. }
  destruct (bool_decide (node_id = [])); cbn [orb]; [exact Hnone|].
  destruct (bool_decide (node_id ∈ visited)) eqn:E2; cbn [orb]; [exact Hnone|].
  destruct (bool_decide (is_Some (dict_lookup node_id mapping))) eqn:E3; cbn [negb];
    [|exact Hnone].
  clear Hnone.
  apply bool_decide_eq_false in E2. apply bool_decide_eq_true in E3.
  apply dict_lookup_is_Some in E3.
  assert (Hone : Ok (ids ++ [node_id]) = Ok out ->
            exists more, out = ids ++ more /\ NoDup more
              /\ (forall x, x ∈ more -> x ∈ keyset mapping /\ x ∉ visited)
              /\ child_chain mapping more /\ (more = [] \/ head more = Some node_id)).
  { intros [= <-]. exists [node_id]. split; [reflexivity|].
    split; [apply NoDup_singleton|]. split; [|split; [exact I|auto]].
    intros x Hx. apply list_elem_of_singleton in Hx as ->. auto. }
  destruct (py_get _ (lit "children") (VList [])) as [ch| |] eqn:Hch; cbn [mbind result_bind];
    try discriminate.
  destruct (truthy (py_or ch (VList []))); cbn [negb]; [|exact Hone].
  destruct (py_iter (py_or ch (VList []))) as [children| |] eqn:Hiter;
    cbn [mbind result_bind]; try discriminate.
  destruct (foldM (pick_child mapping) (None, -1, cache) children)
    as [[[next_id best] cache']| |] eqn:Hpick; cbn [mbind result_bind]; try discriminate.
  destruct next_id as [n|]; [|exact Hone].
  destruct (bool_decide (n = [])); [exact Hone|].
  clear Hone. intros Hrec.
  apply IH in Hrec as (more & -> & Hnd & Hin & Hchain & Hhead).
  exists (node_id :: more). rewrite <- app_assoc. split; [reflexivity|].
  split; [|split; [|split; [|right; reflexivity]]].
  - constructor; [|exact Hnd]. intros Hx. apply Hin in Hx as [_ Hx]. set_solver.
  - intros x Hx. apply elem_of_cons in Hx as [->|Hx]; [auto|].
    apply Hin in Hx as [Hk Hv]. split; [exact Hk|set_solver].
  - destruct more as [|b more]; [exact I|]. cbn [child_chain]. split; [|exact Hchain].
    destruct Hhead as [Hhead|Hhead]; [discriminate|]. injection Hhead as ->.
    exists children. split.
    + unfold children_of. rewrite Hch. cbn [mbind result_bind]. exact Hiter.
    + apply pick_children_next in Hpick as [Hpick|(c & Hc & Hpick)]; [discriminate|].
      cbn [fst] in Hpick. injection Hpick as <-. exact Hc.
Qed.


Lemma latest_branch_ids (mapping : pydict) (ids : list pystr) :
  collect_latest_branch_path mapping = Ok ids ->
  NoDup ids /\ (forall x, x ∈ ids -> x ∈ keyset mapping).
Proof.
  unfold collect_latest_branch_path.
  destruct (map fst mapping) as [|first_key keys].
  { intros [= <-]. split; [constructor|]. intros x Hx. by apply elem_of_nil in Hx. }
  destruct (find_root mapping _) as [r| |]; cbn [mbind result_bind]; try discriminate.
  intros Hloop.
  apply latest_branch_loop_walk in Hloop as (more & -> & Hnd & Hin & _).
  cbn [app]. split; [exact Hnd|]. intros x Hx. apply Hin. exact Hx.
Qed.


Lemma path_to_messages_from (mapping : pydict) (ids : list pystr) :
  forall acc out : list NormalizedMessage,
    foldM (fun out pid =>
             let node := py_or (dict_get mapping pid VNone) (VDict []) in
             msg ← py_get node (lit "message") VNone;
             if negb (truthy msg) then Ok out
             else
               m ← normalize_message msg;
               if bool_decide (content m = []) then Ok out else Ok (out ++ [m]))
          acc ids = Ok out ->
    exists more : list NormalizedMessage,
      out = acc ++ more
      /\ (length more <= length ids)%nat
      /\ forall m, m ∈ more -> exists pid, pid ∈ ids /\ message_of_node lib mapping pid m.
Proof.
  match goal with |- forall acc out, foldM ?f acc ids = _ -> _ => set (step := f) end.
  induction ids as [|pid ids IH]; intros acc out; cbn [foldM].
  - intros [= <-]. exists []. rewrite app_nil_r. split; [reflexivity|]. split; [cbn; lia|].
    intros m Hm. by apply elem_of_nil in Hm.
  - destruct (step acc pid) as [acc1| |] eqn:Hstep; cbn [mbind result_bind]; try discriminate.
    assert (Hacc : acc1 = acc
                   \/ exists m0, acc1 = acc ++ [m0] /\ message_of_node lib mapping pid m0).
    { unfold step in Hstep. cbn beta zeta in Hstep.
      destruct (py_get _ (lit "message") VNone) as [msg| |] eqn:Hmsg;
        cbn [mbind result_bind] in Hstep; try discriminate.
      destruct (truthy msg) eqn:Htruthy; cbn [negb mbind result_bind] in Hstep;
        [|injection Hstep as <-; auto].
      destruct (normalize_message msg) as [m0| |] eqn:Hnorm;
        cbn [mbind result_bind] in Hstep; try discriminate.
      case_bool_decide as Hc; injection Hstep as <-; [auto|].
      right. exists m0. split; [reflexivity|]. exists msg. auto. }
    intros H. apply IH in H as (more & -> & Hlen & Hfrom).
    destruct Hacc as [->|(m0 & -> & Hm0)].
    + exists more. split; [reflexivity|]. split; [cbn [length]; lia|].
      intros m Hm. destruct (Hfrom m Hm) as (p & Hp & Hnode). exists p. split; [by right|auto].
    + exists (m0 :: more). rewrite <- app_assoc. split; [reflexivity|].
      split; [cbn [length]; lia|].
      intros m Hm. apply elem_of_cons in Hm as [->|Hm].
      * exists pid. split; [by left|exact Hm0].
      * destruct (Hfrom m Hm) as (p & Hp & Hnode). exists p. split; [by right|auto].
Qed.

Lemma path_to_messages_of_nodes (mapping : pydict) (ids : list pystr)
    (out : list NormalizedMessage) :
  path_to_messages mapping ids = Ok out ->
  NoDup ids -> (forall x, x ∈ ids -> x ∈ keyset mapping) ->
  (length out <= length mapping)%nat
  /\ forall m, m ∈ out ->
       exists pid, pid ∈ keyset mapping /\ message_of_node lib mapping pid m.
Proof.
  intros H Hnd Hin. unfold path_to_messages in H.
  apply path_to_messages_from in H as (more & -> & Hlen & Hfrom). cbn [app].
  pose proof (NoDup_keys_length mapping ids Hnd Hin). split; [lia|].
  intros m Hm. destruct (Hfrom m Hm) as (p & Hp & Hnode). eauto.
Qed.

(** X14: the transcript of a conversation holds nothing but normalized
    messages of nodes of its mapping, each with content, and never more
    messages than the mapping has nodes. *)
Theorem transcript_comes_from_nodes (conv mapping : pydict)
    (out : list NormalizedMessage) :
  dict_lookup (lit "mapping") conv = Some (VDict mapping) ->
  linearize_conversation (VDict conv) = Ok out ->
  (length out <= length mapping)%nat
  /\ forall m, m ∈ out ->
       content m <> []
       /\ exists pid, pid ∈ keyset mapping /\ message_of_node lib mapping pid m.
Proof.
  intros Hmap Hlin.
  assert (Hcontent : Forall (fun m => content m <> []) out)
    by (eapply linearize_conversation_nonempty; exact Hlin).
  rewrite Forall_forall in Hcontent.
  cut ((length out <= length mapping)%nat
       /\ forall m, m ∈ out ->
            exists pid, pid ∈ keyset mapping /\ message_of_node lib mapping pid m).
  { intros [H1 H2]. split; [exact H1|]. intros m Hm. split; [apply Hcontent|apply H2]; exact Hm. }
  revert Hlin. unfold linearize_conversation.
  assert (Hnil : Ok [] = Ok out ->
            (length out <= length mapping)%nat
            /\ forall m, m ∈ out ->
                 exists pid, pid ∈ keyset mapping /\ message_of_node lib mapping pid m).
  { intros [= <-]. split; [cbn; lia|]. intros m Hm. by apply elem_of_nil in Hm. }
  destruct (truthy (VDict conv)); cbn [negb]; [|exact Hnil].
  unfold py_get, dict_get. rewrite Hmap. cbn [default from_option id mbind result_bind].
  destruct (truthy (VDict mapping)); cbn [negb]; [|exact Hnil].
  unfold primary_candidate, fallback_candidate.
  destruct (collect_path_from_current_node _ _) as [pids| |] eqn:Hpids; cbn [mbind result_bind];
    try discriminate.
  destruct (path_to_messages mapping pids) as [primary| |] eqn:Hp; cbn [mbind result_bind];
    try discriminate.
  destruct (collect_latest_branch_path mapping) as [fids| |] eqn:Hfids;
    cbn [mbind result_bind]; try discriminate.
  destruct (path_to_messages mapping fids) as [fallback| |] eqn:Hf; cbn [mbind result_bind];
    try discriminate.
  intros [= <-].
  apply collect_path_ids in Hpids as [Hnd1 Hin1].
  destruct (latest_branch_ids mapping fids Hfids) as [Hnd2 Hin2].
  apply (path_to_messages_of_nodes _ _ _ Hp) in Hnd1; [|exact Hin1].
  apply (path_to_messages_of_nodes _ _ _ Hf) in Hnd2; [|exact Hin2].
  unfold reconcile. destruct primary; [exact Hnd2|].
  destruct (_ <? _)%nat; assumption.
Qed.

End LatestBranch.

Section SubtreeTimestamp.
Context `{lib : PyLib}.

(** X15: the subtree timestamp of a key of the mapping.  The call ends
    whenever the fuel exceeds the number of keys not on the stack; a value
    in the memo table is returned as it is; a key that is on the stack (a
    cycle) gives the timestamp of its own message and leaves the table
    alone; otherwise the result is entered in the table under the key, and
    it is at least the timestamp of the node's own message.  An identifier
    that is no key gives 0. *)
Theorem subtree_timestamp_guarded (mapping : pydict) (fuel : nat) (id : pystr)
    (cache : gmap pystr Z) (stack : gset pystr) :
  (size (keyset mapping ∖ stack) < fuel)%nat ->
  id <> [] ->
  id ∈ keyset mapping ->
  terminates (get_latest_subtree_timestamp fuel mapping (VStr id) cache stack)
  /\ (forall t, cache !! id = Some t ->
        get_latest_subtree_timestamp fuel mapping (VStr id) cache stack = Ok (t, cache))
  /\ (cache !! id = None -> id ∈ stack ->
      get_latest_subtree_timestamp fuel mapping (VStr id) cache stack
      = t ← get_node_message_timestamp (dict_get mapping id VNone); Ok (t, cache))
  /\ (cache !! id = None -> id ∉ stack ->
      forall t cache',
        get_latest_subtree_timestamp fuel mapping (VStr id) cache stack = Ok (t, cache') ->
        cache' !! id = Some t
        /\ forall own,
             get_node_message_timestamp (py_or (dict_get mapping id VNone) (VDict [])) = Ok own ->
             own <= t)
  /\ (forall other : pyval,
        dict_contains mapping other = Ok false ->
        get_latest_subtree_timestamp fuel mapping other cache stack = Ok (0, cache)).
Proof.
  intros Hfuel Hid Hkey.
  split; [apply get_latest_subtree_timestamp_terminates; exact Hfuel|].
  destruct fuel as [|fuel]; [lia|].
  assert (Htruthy : truthy (VStr id) = true).
  { cbn [truthy]. rewrite bool_decide_eq_false_2 by exact Hid. reflexivity. }
  assert (Hknown : dict_contains mapping (VStr id) = Ok true).
  { cbn [dict_contains]. rewrite bool_decide_eq_true_2; [reflexivity|].
    apply dict_lookup_is_Some. exact Hkey. }
  split; [|split; [|split]].
  - intros t Ht. cbn [get_latest_subtree_timestamp]. rewrite Htruthy, Hknown.
    cbn [negb mbind result_bind]. rewrite Ht. reflexivity.
  - intros Hc Hs. cbn [get_latest_subtree_timestamp]. rewrite Htruthy, Hknown.
    cbn [negb mbind result_bind]. rewrite Hc, (bool_decide_eq_true_2 _ Hs). reflexivity.
  - intros Hc Hs t cache'. cbn [get_latest_subtree_timestamp]. rewrite Htruthy, Hknown.
    cbn [negb mbind result_bind]. rewrite Hc, (bool_decide_eq_false_2 _ Hs).
    destruct (get_node_message_timestamp _) as [own| |]; cbn [mbind result_bind];
      try discriminate.
    destruct (py_get _ (lit "children") (VList [])) as [ch| |]; cbn [mbind result_bind];
      try discriminate.
    destruct (py_iter _) as [children| |]; cbn [mbind result_bind]; try discriminate.
    destruct (foldM _ (own, cache) children) as [[best cache1]| |] eqn:Hfold;
      cbn [mbind result_bind]; try discriminate.
    intros [= <- <-]. split; [apply lookup_insert_eq|].
    intros own' [= <-].
    apply (foldM_invariant (fun bc : Z * gmap pystr Z => own <= bc.1)) in Hfold;
      [exact Hfold|cbn; lia|].
    intros [b c] child [b' c'] Hb.
    destruct (get_latest_subtree_timestamp fuel mapping child c _) as [[t2 c2]| |];
      cbn [mbind result_bind]; try discriminate.
    intros [= <- <-]. cbn [fst] in *. destruct (t2 >? b) eqn:E; [|exact Hb].
    apply Z.gtb_lt in E. lia.
  - intros other Hother. cbn [get_latest_subtree_timestamp].
    destruct (truthy other); cbn [negb]; [|reflexivity].
    rewrite Hother. reflexivity.
Qed.

End SubtreeTimestamp.

(** ** From a message to its month line *)







Section WrittenLines.
Context `{lib : PyLib}.


End WrittenLines.

(** ** The stream reader ends *)

Lemma lstrip_with_length (p : N -> bool) (s : pystr) :
  (length (lstrip_with p s) <= length s)%nat.
Proof.
  induction s as [|c s IH]; cbn [lstrip_with length]; [lia|].
  destruct (p c); cbn [length]; lia.
Qed.

Lemma find_array_start_size (f : list pystr) :
  forall (acc buf : pystr) (f' : list pystr),
    find_array_start f acc = Some (buf, f') ->
    (length f' + length (concat f') + length buf
     < length f + length (concat f) + length acc)%nat.
Proof.
  induction f as [|chunk f IH]; intros acc buf f'; cbn [find_array_start]; [discriminate|].
  destruct (bool_decide (chunk = [])); [discriminate|].
  cbn [concat length]. rewrite length_app.
  destruct (find_char 91%N (acc ++ chunk)) as [idx|] eqn:E.
  - intros [= <- <-]. rewrite length_drop, length_app. lia.
  - intros H. apply IH in H. rewrite length_app in H. lia.
Qed.

Section StreamEnds.
Context `{lib : PyLib}.
Hypothesis raw_decode_consumes :
  forall (b : pystr) (obj : pyval) (idx : nat), raw_decode b = Some (obj, idx) -> (0 < idx)%nat.

Lemma iter_values_enough (fuel : nat) :
  forall (f : list pystr) (buf : pystr),
    (length f + length (concat f) + length buf < fuel)%nat ->
    terminates (iter_values fuel f buf).2
    /\ forall fuel', (fuel <= fuel')%nat -> iter_values fuel' f buf = iter_values fuel f buf.
Proof.
  induction fuel as [|fuel IH]; intros f buf Hsize; [lia|].
  pose proof (lstrip_with_length is_separator buf) as Hstrip.
  assert (Hread : forall (rest : pystr) (ending : result unit),
             (length rest <= length buf)%nat ->
             terminates ending ->
             terminates (let '(chunk, f') := read f in
                         if bool_decide (chunk = []) then ([], ending)
                         else iter_values fuel f' (rest ++ chunk)).2
             /\ forall fuel', (fuel <= fuel')%nat ->
                  (let '(chunk, f') := read f in
                   if bool_decide (chunk = []) then (([], ending) : gen pyval)
                   else iter_values fuel' f' (rest ++ chunk))
                  = (let '(chunk, f') := read f in
                     if bool_decide (chunk = []) then ([], ending)
                     else iter_values fuel f' (rest ++ chunk))).
  { intros rest ending Hrest Hending. destruct f as [|chunk f']; cbn [read].
    - rewrite bool_decide_eq_true_2 by reflexivity. split; [exact Hending|reflexivity].
    - destruct (bool_decide (chunk = [])); [split; [exact Hending|reflexivity]|].
      cbn [concat length] in Hsize. rewrite length_app in Hsize.
      apply IH. rewrite length_app. lia. }
  split.
  - cbn [iter_values]. destruct (lstrip_with is_separator buf) as [|c rest] eqn:E.
    + apply (Hread [] (Ok tt)); [cbn [length]; lia|discriminate].
    + destruct (c =? 93)%N; [discriminate|].
      destruct (raw_decode (c :: rest)) as [[obj idx]|] eqn:Hd.
      * unfold gen_cons. cbn [snd].
        apply IH. rewrite length_drop. apply raw_decode_consumes in Hd.
        cbn [length] in *. lia.
      * apply (Hread (c :: rest) (Raise JSONDecodeError)); [lia|discriminate].
  - intros [|fuel'] Hle; [lia|]. cbn [iter_values].
    destruct (lstrip_with is_separator buf) as [|c rest] eqn:E.
    + apply (Hread [] (Ok tt)); [cbn [length]; lia|discriminate|lia].
    + destruct (c =? 93)%N; [reflexivity|].
      destruct (raw_decode (c :: rest)) as [[obj idx]|] eqn:Hd.
      * f_equal. apply IH; [|lia]. rewrite length_drop. apply raw_decode_consumes in Hd.
        cbn [length] in *. lia.
      * apply (Hread (c :: rest) (Raise JSONDecodeError)); [lia|discriminate|lia].
Qed.

(** X17: the stream reader ends.  When the decoder consumes at least one
    character for each value it returns, the generator finishes (normally
    or with the decoder's exception) within as many steps as the stream has
    chunks and characters, and what it yields is the same for any larger
    number of steps. *)
Theorem stream_reader_ends (f : list pystr) (fuel : nat) :
  (length f + length (concat f) < fuel)%nat ->
  terminates (iter_json_array fuel f).2
  /\ forall fuel', (fuel <= fuel')%nat -> iter_json_array fuel' f = iter_json_array fuel f.
Proof.
  intros Hsize. unfold iter_json_array.
  destruct (find_array_start f []) as [[buf f']|] eqn:E; [|split; [discriminate|reflexivity]].
  apply find_array_start_size in E. cbn [length] in E.
  apply iter_values_enough. lia.
Qed.

End StreamEnds.

Lemma decode_scalar_consumes (b : pystr) (obj : pyval) (idx : nat) :
  Reference.decode_scalar b = Some (obj, idx) -> (0 < idx)%nat.
Proof.
  unfold Reference.decode_scalar.
  destruct (startswith (lit "null") b); [intros [= <- <-]; lia|].
  destruct (startswith (lit "true") b); [intros [= <- <-]; lia|].
  destruct (startswith (lit "false") b); [intros [= <- <-]; lia|].
  assert (Hnum : match Reference.span_digits b with
                 | (_, O) => None
                 | (d, n) => v ← Reference.Z_of_digits 0 d; Some (VInt v, n)
                 end = Some (obj, idx) -> (0 < idx)%nat).
  { destruct (Reference.span_digits b) as [d [|n]]; [discriminate|].
    destruct (Reference.Z_of_digits 0 d); cbn; [intros [= <- <-]; lia|discriminate]. }
  destruct b as [|c s]; [exact Hnum|].
  destruct (N.eq_dec c 34%N) as [->|Hc].
  - destruct (find_char 34%N s) as [n|]; cbn; [|discriminate].
    destruct (existsb _ _); [discriminate|]. intros [= <- <-]. lia.
  - revert Hnum. generalize (Reference.span_digits (c :: s)). intros sp Hnum.
    destruct c as [|p]; [exact Hnum|].
    do 6 (destruct p as [p|p|]; try exact Hnum). congruence.
Qed.

(** ** Splitting an unedited preview *)































Section PreviewSplit.
Context `{lib : PyLib}.



End PreviewSplit.

(** ** The preview build over a directory *)

Lemma elem_of_listdir_sorted (suffix : pystr) (dir : store) (p : pystr) :
  p ∈ listdir_sorted suffix dir <-> is_Some (dir !! p) /\ endswith suffix p = true.
Proof.
  unfold listdir_sorted, sorted_names.
  rewrite (isort_perm str_leb _), list_elem_of_filter, elem_of_elements, elem_of_dom.
  tauto.
Qed.

Lemma startswith_true (p s : pystr) :
  startswith p s = true -> exists r, s = p ++ r.
Proof.
  revert s. induction p as [|a p IH]; intros s H; [exists s; reflexivity|].
  destruct s as [|b s]; cbn [startswith] in H; [discriminate|].
  apply andb_true_iff in H as [Hab H]. apply N.eqb_eq in Hab. subst b.
  destruct (IH s H) as [r ->]. exists r. reflexivity.
Qed.

(** A name that ends in [.md] still does after [.md] has become
    [.topics.md] everywhere in it. *)
Lemma preview_name_suffix (x : pystr) :
  forall k : nat,
    Forall (fun c => c <> 46%N) (take k (x ++ lit ".md")) ->
    exists y, replace_from (lit ".md") (lit ".topics.md") k (x ++ lit ".md")
              = y ++ lit ".topics.md".
Proof.
  induction x as [|c x IH]; intros k Hk.
  - destruct k as [|k]; [exists []; reflexivity|].
    apply Forall_inv in Hk. contradiction Hk. reflexivity.
  - destruct k as [|k]; cbn [app replace_from].
    + destruct (startswith (lit ".md") (c :: x ++ lit ".md")) eqn:E.
      * apply startswith_true in E as [r E]. injection E as -> E.
        destruct (IH 2%nat) as [y Hy].
        { rewrite E. repeat constructor; discriminate. }
        replace (length (lit ".md") - 1)%nat with 2%nat by reflexivity.
        rewrite Hy. exists (lit ".topics.md" ++ y). rewrite <- app_assoc. reflexivity.
      * destruct (IH 0%nat) as [y Hy]; [constructor|].
        rewrite Hy. exists (c :: y). reflexivity.
    + cbn [app take] in Hk. apply Forall_inv_tail in Hk.
      apply IH. exact Hk.
Qed.

Lemma preview_name_is_md (fname : pystr) :
  endswith (lit ".md") fname = true ->
  endswith (lit ".md") (replace (lit ".md") (lit ".topics.md") fname) = true.
Proof.
  unfold endswith. intros H. apply startswith_true in H as [r H].
  apply (f_equal (@rev N)) in H. rewrite rev_involutive, rev_app_distr in H.
  change (rev (rev (lit ".md"))) with (lit ".md") in H. subst fname.
  destruct (preview_name_suffix (rev r) 0 ltac:(constructor)) as [y Hy].
  unfold replace. rewrite Hy, rev_app_distr.
  change (rev (lit ".topics.md")) with (rev (lit ".md") ++ rev (lit ".topics")).
  rewrite <- app_assoc. apply startswith_app.
Qed.

Section PreviewBuild.
Context `{lib : PyLib}.
Variables (gap : Z) (triggers : list pystr).

Lemma preview_lines_nonempty (markers : list nat) (i k : nat) (l : pystr) (ls : list pystr) :
  exists a b, preview_lines markers i k (l :: ls) = a :: b.
Proof. cbn [preview_lines]. destruct (bool_decide _); eauto. Qed.

Lemma preview_file_keeps (dir : store) (f p : pystr) :
  has_lines dir p -> has_lines (preview_file gap triggers dir f) p.
Proof.
  intros H. unfold preview_file.
  destruct (map rstrip_nl (default [] (dir !! f))) as [|l ls]; [exact H|].
  unfold has_lines. destruct (decide (p = replace (lit ".md") (lit ".topics.md") f)) as [->|Hne].
  - rewrite lookup_insert_eq.
    destruct (preview_lines_nonempty (detect_topic_boundaries (l :: ls) gap triggers) 0 0 l ls)
      as (a & b & E).
    rewrite E. eauto.
  - rewrite lookup_insert_ne by congruence. exact H.
Qed.

Lemma preview_file_writes (dir : store) (f : pystr) :
  has_lines dir f ->
  has_lines (preview_file gap triggers dir f) (replace (lit ".md") (lit ".topics.md") f).
Proof.
  intros (a & b & E). unfold preview_file. rewrite E. cbn [default from_option id map].
  unfold has_lines. rewrite lookup_insert_eq.
  destruct (preview_lines_nonempty
              (detect_topic_boundaries (rstrip_nl a :: map rstrip_nl b) gap triggers) 0 0
              (rstrip_nl a) (map rstrip_nl b)) as (x & y & E').
  rewrite E'. eauto.
Qed.

Lemma preview_fold_keeps (fs : list pystr) :
  forall (dir : store) (p : pystr),
    has_lines dir p -> has_lines (foldl (preview_file gap triggers) dir fs) p.
Proof.
  induction fs as [|f fs IH]; intros dir p H; [exact H|].
  cbn [foldl]. apply IH, preview_file_keeps, H.
Qed.

Lemma preview_fold_writes (fs : list pystr) :
  forall (dir : store) (f : pystr),
    f ∈ fs -> has_lines dir f ->
    has_lines (foldl (preview_file gap triggers) dir fs)
              (replace (lit ".md") (lit ".topics.md") f).
Proof.
  induction fs as [|g fs IH]; intros dir f Hin H; [by apply elem_of_nil in Hin|].
  cbn [foldl]. apply elem_of_cons in Hin as [->|Hin].
  - apply preview_fold_keeps, preview_file_writes, H.
  - apply IH; [exact Hin|]. apply preview_file_keeps, H.
Qed.

(** X19: the preview build takes every file of [by_month] whose name ends
    in [.md], also a preview that an earlier run has left there.  Each such
    file with at least one line gets a preview under its name with [.md]
    turned into [.topics.md]; no file with lines is removed or emptied; and
    a second run writes the preview of the preview, under a name with
    [.topics.topics.md]. *)
Theorem previews_are_previewed_again (dir : store) (fname : pystr) :
  has_lines dir fname ->
  endswith (lit ".md") fname = true ->
  has_lines (build_topic_preview dir gap triggers)
            (replace (lit ".md") (lit ".topics.md") fname)
  /\ (forall p, has_lines dir p -> has_lines (build_topic_preview dir gap triggers) p)
  /\ has_lines (build_topic_preview (build_topic_preview dir gap triggers) gap triggers)
               (replace (lit ".md") (lit ".topics.md")
                  (replace (lit ".md") (lit ".topics.md") fname)).
Proof.
  intros Hf Hmd.
  assert (Hone : forall (d : store) (f : pystr),
             has_lines d f -> endswith (lit ".md") f = true ->
             has_lines (build_topic_preview d gap triggers)
                       (replace (lit ".md") (lit ".topics.md") f)).
  { intros d f Hd He. unfold build_topic_preview. apply preview_fold_writes; [|exact Hd].
    apply elem_of_listdir_sorted. split; [|exact He].
    destruct Hd as (a & b & E). rewrite E. eauto. }
  split; [apply Hone; assumption|]. split.
  - intros p Hp. apply preview_fold_keeps, Hp.
  - apply Hone; [apply Hone; assumption|]. apply preview_name_is_md, Hmd.
Qed.

End PreviewBuild.

(** ** Instances of the further properties *)

Lemma normalize_message_invariants_witness :
  @normalize_message Reference.utc Cases.padded_message
  = Ok {| role := VStr (lit "user"); content := lit "hi"; ts := 5 |}
  /\ truthy (VStr (lit "user")) = true
  /\ trimmed (lit "hi")
  /\ exists d : pydict, Cases.padded_message = VDict d.
Proof.
  split; [vm_compute; reflexivity|].
  apply (@normalize_message_invariants Reference.utc Cases.padded_message
           {| role := VStr (lit "user"); content := lit "hi"; ts := 5 |}).
  vm_compute. reflexivity.
Defined.

Lemma yielded_conversations_have_messages_witness :
  (@parse_openai_conversations Reference.utc
     (VList [VDict Samples.branching_conversation])).1
  = [ {| title := VStr (lit "Conversation");
         messages := [Samples.said "root" 1; Samples.said "bee" 2; Samples.said "dee" 9] |} ]
  /\ [Samples.said "root" 1; Samples.said "bee" 2; Samples.said "dee" 9] <> []
  /\ truthy (VStr (lit "Conversation")) = true.
Proof.
  assert (E : (@parse_openai_conversations Reference.utc
                 (VList [VDict Samples.branching_conversation])).1
              = [ {| title := VStr (lit "Conversation");
                     messages := [Samples.said "root" 1; Samples.said "bee" 2;
                                  Samples.said "dee" 9] |} ])
    by (vm_compute; reflexivity).
  split; [exact E|].
  apply (@yielded_conversations_have_messages Reference.utc
           (VList [VDict Samples.branching_conversation])
           {| title := VStr (lit "Conversation");
              messages := [Samples.said "root" 1; Samples.said "bee" 2;
                           Samples.said "dee" 9] |}).
  rewrite E. apply list_elem_of_here.
Defined.

Lemma preview_keeps_every_line_witness :
  filter (fun l => ~ is_marker l) (preview_lines [0; 1]%nat 0 0 Cases.plain_month)
  = map (fun l => l ++ [NL]) Cases.plain_month
  /\ length (filter (fun l => is_marker l) (preview_lines [0; 1]%nat 0 0 Cases.plain_month))
     = length (filter (fun j => j ∈ [0; 1]%nat) (seq 0 (length Cases.plain_month))).
Proof.
  apply (preview_keeps_every_line [0; 1]%nat Cases.plain_month).
  repeat constructor; intros H; vm_compute in H; discriminate H.
Defined.


Lemma month_build_keeps_tabbed_lines_witness :
  @month_sources Reference.utc Samples.ordered_days (lit "2026-01")
  ≡ₚ concat (map (fun f => filter has_tab (default [] (Samples.ordered_days !! f)))
                 (month_day_files Samples.ordered_days (lit "2026-01")))
  /\ length [ lit "[] user: earlier ^msg-000001" ++ [NL];
              lit "[] user: later ^msg-000002" ++ [NL] ]
     = length (concat (map (fun f => filter has_tab (default [] (Samples.ordered_days !! f)))
                           (month_day_files Samples.ordered_days (lit "2026-01")))).
Proof.
  apply (@month_build_keeps_tabbed_lines Reference.utc Samples.ordered_days (lit "2026-01")).
  vm_compute. reflexivity.
Defined.

Lemma day_writer_appends_and_counts_witness :
  (@write_by_day_raw Reference.utc Cases.two_messages Cases.one_day).2 = Ok 1%nat
  /\ (forall p old,
        Cases.one_day !! p = Some old ->
        exists more,
          (@write_by_day_raw Reference.utc Cases.two_messages Cases.one_day).1 !! p
          = Some (old ++ more))
  /\ (forall count : nat,
        (@write_by_day_raw Reference.utc Cases.two_messages Cases.one_day).2 = Ok count ->
        count = length (filter (fun m => content m <> [])
                               (concat (map messages Cases.two_messages.1)))).
Proof.
  split; [vm_compute; reflexivity|].
  apply (@day_writer_appends_and_counts Reference.utc Cases.two_messages Cases.one_day).
  apply surjective_pairing.
Defined.

Lemma array_start_ignores_chunking_witness :
  exists (buf : pystr) (f' : list pystr),
    find_array_start Cases.wrapped_stream [] = Some (buf, f')
    /\ buf ++ concat f' = lit " 1, 2 ]}"
    /\ (forall fuel : nat,
          @iter_json_array Reference.utc fuel Cases.wrapped_stream
          = @iter_values Reference.utc fuel f' buf)
    /\ (forall (fuel : nat) (seps : pystr),
          forallb is_separator seps = true ->
          @iter_values Reference.utc fuel f' (seps ++ buf)
          = @iter_values Reference.utc fuel f' buf).
Proof.
  apply (@array_start_ignores_chunking Reference.utc Cases.wrapped_stream
           (lit "{ data:  ") (lit " 1, 2 ]}")).
  - repeat constructor; discriminate.
  - vm_compute. reflexivity.
  - vm_compute. reflexivity.
Defined.


Lemma transcript_comes_from_nodes_witness :
  (length [Samples.said "root" 1; Samples.said "bee" 2; Samples.said "dee" 9]
   <= length Samples.branching_mapping)%nat
  /\ forall m, m ∈ [Samples.said "root" 1; Samples.said "bee" 2; Samples.said "dee" 9] ->
       content m <> []
       /\ exists pid, pid ∈ keyset Samples.branching_mapping
                      /\ message_of_node Reference.utc Samples.branching_mapping pid m.
Proof.
  apply (@transcript_comes_from_nodes Reference.utc
           Samples.branching_conversation Samples.branching_mapping).
  - reflexivity.
  - vm_compute. reflexivity.
Defined.

Lemma subtree_timestamp_guarded_witness :
  @get_latest_subtree_timestamp Reference.utc 3 Cases.cyclic_mapping (VStr (lit "a")) ∅ ∅
  = Ok (7, <[lit "a" := 7]> (<[lit "b" := 7]> ∅))
  /\ (forall t cache',
        @get_latest_subtree_timestamp Reference.utc 3 Cases.cyclic_mapping
          (VStr (lit "a")) ∅ ∅ = Ok (t, cache') ->
        cache' !! lit "a" = Some t
        /\ forall own,
             @get_node_message_timestamp Reference.utc
               (py_or (dict_get Cases.cyclic_mapping (lit "a") VNone) (VDict [])) = Ok own ->
             own <= t).
Proof.
  split; [vm_compute; reflexivity|].
  refine (proj1 (proj2 (proj2 (proj2
    (@subtree_timestamp_guarded Reference.utc Cases.cyclic_mapping 3 (lit "a") ∅ ∅
       _ _ _)))) _ _).
  - vm_compute. lia.
  - discriminate.
  - unfold keyset. rewrite elem_of_list_to_set. apply list_elem_of_here.
  - reflexivity.
  - apply not_elem_of_empty.
Defined.


Lemma stream_reader_ends_witness :
  @iter_json_array Reference.utc 30 Cases.wrapped_stream = ([VInt 1; VInt 2], Ok tt)
  /\ terminates (@iter_json_array Reference.utc 30 Cases.wrapped_stream).2
  /\ forall fuel', (30 <= fuel')%nat ->
       @iter_json_array Reference.utc fuel' Cases.wrapped_stream
       = @iter_json_array Reference.utc 30 Cases.wrapped_stream.
Proof.
  split; [vm_compute; reflexivity|].
  apply (@stream_reader_ends Reference.utc decode_scalar_consumes Cases.wrapped_stream 30).
  vm_compute. lia.
Defined.


Lemma previews_are_previewed_again_witness :
  has_lines (@build_topic_preview Reference.utc Cases.one_month 4 TOPIC_TRIGGERS_DEFAULT)
            (lit "2026-01.topics.md")
  /\ (forall p,
        has_lines Cases.one_month p ->
        has_lines (@build_topic_preview Reference.utc Cases.one_month 4 TOPIC_TRIGGERS_DEFAULT) p)
  /\ has_lines (@build_topic_preview Reference.utc
                  (@build_topic_preview Reference.utc Cases.one_month 4 TOPIC_TRIGGERS_DEFAULT)
                  4 TOPIC_TRIGGERS_DEFAULT)
               (lit "2026-01.topics.topics.md").
Proof.
  apply (@previews_are_previewed_again Reference.utc 4 TOPIC_TRIGGERS_DEFAULT
           Cases.one_month (lit "2026-01.md")).
  - unfold has_lines, Cases.one_month. rewrite lookup_insert_eq. eauto.
  - vm_compute. reflexivity.
Defined.
